(** * Portfolio site: blog filtering, article loading and navigation

    A shallow embedding of the view logic of the portfolio single-page
    application: the static dataset ([src/data/mockData.js]), the blog list
    view ([BlogPage]), the article detail view ([BlogPostPage]), the home
    page ([HomePage]) and the header ([Header]).

    JavaScript strings are modelled as [string], the sequence of the units
    of the text in UTF-8; for ASCII text, which is the whole dataset, these
    are its UTF-16 code units, and equality, emptiness, concatenation and
    the occurrence of one well-formed text in another are the same in both
    encodings. Arrays are modelled as [list], a nullable string ([null] or
    a string) as [option string], and a value that is a post object or
    [undefined] as [option BlogPostMeta]. The case mapping
    [String.prototype.toLowerCase] is a built-in of the engine and enters
    as a parameter, [JsString.Engine]. *)

From Stdlib Require Import Ascii Lia.
From Stdlib Require String.
From stdpp Require Import base list strings gmap.

Set Warnings "-clear-no-such-hyp".
#[local] Arguments String.append : simpl nomatch.

(** ** JavaScript primitives used by the views *)

Module JsString.

(** [a === b] on strings. *)
Definition strictEq (a b : string) : bool := String.eqb a b.

(** The lower-case form of an ASCII unit: [A]..[Z] go to [a]..[z], every
    other unit stays. *)
Definition lowerUnit (c : ascii) : ascii :=
  let n := nat_of_ascii c in
  if (65 <=? n) && (n <=? 90) then ascii_of_nat (n + 32) else c.

(** The lower-case form of a text in the ASCII range. *)
Fixpoint asciiLower (s : string) : string :=
  match s with
  | EmptyString => EmptyString
  | String c s' => String (lowerUnit c) (asciiLower s')
  end.

(** Are all units of [s] in the ASCII range? *)
Fixpoint isAscii (s : string) : bool :=
  match s with
  | EmptyString => true
  | String c s' => (nat_of_ascii c <? 128) && isAscii s'
  end.

(** [s.toLowerCase()] is computed by the engine from the Unicode case
    mappings, which look at the context of a letter and may change the
    length of the text. The views are modelled over any engine; what is
    used of the mapping is only what it does to ASCII text. *)
Record Engine := {
  toLowerCase : string → string;
  toLowerCase_ascii s : isAscii s = true → toLowerCase s = asciiLower s
}.

(** An engine that leaves everything but [A]..[Z] alone: it is how every
    engine treats ASCII text, and serves to evaluate the views on it. *)
Definition asciiEngine : Engine :=
  {| toLowerCase := asciiLower; toLowerCase_ascii := λ _ _, eq_refl |}.

(** Does [sub] occur at position 0 of [s]? *)
Fixpoint startsWith (s sub : string) {struct sub} : bool :=
  match sub, s with
  | EmptyString, _ => true
  | String _ _, EmptyString => false
  | String c sub', String d s' => Ascii.eqb c d && startsWith s' sub'
  end.

(** [s.includes(sub)]: scan the start positions from left to right. *)
Fixpoint includes (s sub : string) : bool :=
  startsWith s sub ||
  match s with
  | EmptyString => false
  | String _ s' => includes s' sub
  end.

(** Truthiness of a string: only the empty string is falsy. *)
Definition truthy (s : string) : bool :=
  match s with EmptyString => false | String _ _ => true end.

End JsString.

Module JsNullable.

(** Truthiness of a value that is [null] or a string. *)
Definition truthy (v : option string) : bool :=
  match v with
  | None => false
  | Some s => JsString.truthy s
  end.

(** [v === s] where [v] is [null] or a string and [s] is a string. *)
Definition strictEq (v : option string) (s : string) : bool :=
  match v with
  | None => false
  | Some s' => JsString.strictEq s' s
  end.

End JsNullable.

Module JsArray.
Section Ops.
Context {A B : Type}.

(** [arr.filter(f)]: visit the elements by increasing index and push
    the ones the callback accepts onto the result. *)
Definition filter (f : A → bool) (arr : list A) : list A :=
  fold_left (λ acc x, if f x then acc ++ [x] else acc) arr [].

(** [arr.slice(start, end)] for non-negative indices. *)
Definition slice (start end_ : nat) (arr : list A) : list A :=
  take (Nat.min end_ (length arr) - start) (drop start arr).

(** [arr.find(f)]: the first accepted element, [undefined] if none. *)
Fixpoint find (f : A → bool) (arr : list A) : option A :=
  match arr with
  | [] => None
  | x :: arr' => if f x then Some x else find f arr'
  end.

(** [arr.flatMap(f)]. *)
Fixpoint flatMap (f : A → list B) (arr : list A) : list B :=
  match arr with
  | [] => []
  | x :: arr' => f x ++ flatMap f arr'
  end.
End Ops.

(** [arr.includes(s)] on an array of strings. *)
Fixpoint includes (arr : list string) (s : string) : bool :=
  match arr with
  | [] => false
  | x :: arr' => JsString.strictEq x s || includes arr' s
  end.
End JsArray.

Module JsSet.

(** A [Set] of strings keeps its members in insertion order. *)
Definition add (members : list string) (s : string) : list string :=
  if JsArray.includes members s then members else members ++ [s].

(** [new Set(iterable)]. *)
Definition new (iterable : list string) : list string :=
  fold_left add iterable [].

(** [[...set]]. *)
Definition spread (members : list string) : list string := members.

End JsSet.

Module JsObject.

(** The member names every object literal inherits from
    [Object.prototype]. *)
Definition prototypeKeys : list string :=
  ["constructor"; "hasOwnProperty"; "isPrototypeOf"; "propertyIsEnumerable";
   "toLocaleString"; "toString"; "valueOf"; "__proto__";
   "__defineGetter__"; "__defineSetter__"; "__lookupGetter__";
   "__lookupSetter__"].

(** What [obj[key]] finds: a property of the literal, a member inherited
    from the prototype, or [undefined]. *)
Inductive Lookup (A : Type) : Type :=
| Own (value : A)
| Inherited (key : string)
| Undefined.
Arguments Own {A} value.
Arguments Inherited {A} key.
Arguments Undefined {A}.

(** The own property [key] of an object literal; of two entries with the
    same key the later one counts. *)
Definition ownProperty {A} (literal : list (string * A)) (key : string) : option A :=
  fold_left (λ found entry, if JsString.strictEq entry.1 key then Some entry.2 else found)
    literal None.

(** [literal[key]] *)
Definition get {A} (literal : list (string * A)) (key : string) : Lookup A :=
  match ownProperty literal key with
  | Some value => Own value
  | None => if JsArray.includes prototypeKeys key then Inherited key else Undefined
  end.

End JsObject.

(** ** Data model ([src/data/mockData.js]) *)

Module Post.
Record BlogPostMeta := {
  id : string;
  title : string;
  excerpt : string;
  date : string;
  readTime : string;
  tags : list string;
  markdownFile : string;
  published : bool
}.
End Post.
Abbreviation BlogPostMeta := Post.BlogPostMeta.

Module Proj.
Record Project := {
  id : string;
  name : string;
  description : string;
  techStack : list string;
  github : option string;
  liveUrl : option string;
  image : string;
  featured : bool
}.
End Proj.
Abbreviation Project := Proj.Project.

#[global] Instance BlogPostMeta_eq_dec : EqDecision BlogPostMeta.
Proof. solve_decision. Defined.

#[global] Instance Project_eq_dec : EqDecision Project.
Proof. solve_decision. Defined.

Module Profile.
Record Social := {
  github : string;
  linkedin : string;
  email : string
}.

Record ProfileData := {
  name : string;
  title : string;
  tagline : string;
  bio : string;
  interests : list string;
  social : Social
}.
End Profile.

Module MockData.

Definition profileData : Profile.ProfileData :=
  {| Profile.name := "Yash Lathiya";
     Profile.title := "Software Engineer";
     Profile.tagline := "Building scalable backend systems with focus on performance";
     Profile.bio := "I'm a passionate software engineer specializing in low latency data communication, database internals, and system design. I love diving deep into backend development and creating efficient, scalable solutions.";
     Profile.interests :=
       ["Low Latency Data Communication"; "Database Internals";
        "System Design"; "Backend Development"];
     Profile.social :=
       {| Profile.github := "https://github.com/yalathiy";
          Profile.linkedin := "https://www.linkedin.com/in/yash-a-lathiya";
          Profile.email := "yalathiya.it@gmail.com" |} |}.

Definition blogPosts : list BlogPostMeta := [
  {| Post.id := "understanding-database-indexes";
     Post.title := "Understanding Database Indexes: B-Trees vs LSM-Trees";
     Post.excerpt := "A deep dive into how different database index structures work and when to use each one for optimal performance.";
     Post.date := "2025-01-15";
     Post.readTime := "8 min read";
     Post.tags := ["Database"; "Performance"; "Data Structures"];
     Post.markdownFile := "understanding-database-indexes.md";
     Post.published := true |};
  {| Post.id := "low-latency-communication";
     Post.title := "Achieving Low Latency in Distributed Systems";
     Post.excerpt := "Techniques and patterns for building ultra-low latency communication systems including TCP optimizations and zero-copy strategies.";
     Post.date := "2025-01-10";
     Post.readTime := "12 min read";
     Post.tags := ["System Design"; "Performance"; "Networking"];
     Post.markdownFile := "low-latency-communication.md";
     Post.published := true |};
  {| Post.id := "microservices-patterns";
     Post.title := "Essential Microservices Patterns Every Backend Engineer Should Know";
     Post.excerpt := "Explore critical patterns like Circuit Breaker, Saga, and API Gateway that are essential for building robust microservices architectures.";
     Post.date := "2025-01-05";
     Post.readTime := "10 min read";
     Post.tags := ["Microservices"; "Backend"; "Architecture"];
     Post.markdownFile := "microservices-patterns.md";
     Post.published := true |};
  {| Post.id := "postgres-query-optimization";
     Post.title := "PostgreSQL Query Optimization Techniques";
     Post.excerpt := "Learn how to analyze and optimize PostgreSQL queries using EXPLAIN, proper indexing strategies, and query rewriting techniques.";
     Post.date := "2024-12-28";
     Post.readTime := "15 min read";
     Post.tags := ["PostgreSQL"; "Database"; "Optimization"];
     Post.markdownFile := "postgres-query-optimization.md";
     Post.published := true |}
].

Definition projects : list Project := [
  {| Proj.id := "distributed-cache";
     Proj.name := "Distributed Cache System";
     Proj.description := "A high-performance distributed caching system built with Redis and Go, supporting consistent hashing and automatic failover.";
     Proj.techStack := ["Go"; "Redis"; "Docker"; "Kubernetes"];
     Proj.github := Some "https://github.com/yalathiy/distributed-cache";
     Proj.liveUrl := None;
     Proj.image := "https://images.unsplash.com/photo-1558494949-ef010cbdcc31?w=800&h=600&fit=crop";
     Proj.featured := true |};
  {| Proj.id := "realtime-analytics";
     Proj.name := "Real-time Analytics Pipeline";
     Proj.description := "Stream processing pipeline for real-time analytics using Apache Kafka, processing millions of events per second with low latency.";
     Proj.techStack := ["Kafka"; "Python"; "ClickHouse"; "Grafana"];
     Proj.github := Some "https://github.com/yalathiy/realtime-analytics";
     Proj.liveUrl := None;
     Proj.image := "https://images.unsplash.com/photo-1551288049-bebda4e38f71?w=800&h=600&fit=crop";
     Proj.featured := true |};
  {| Proj.id := "database-profiler";
     Proj.name := "Database Query Profiler";
     Proj.description := "A tool for profiling and analyzing database query performance with detailed execution plans and recommendations.";
     Proj.techStack := ["Node.js"; "PostgreSQL"; "React"; "D3.js"];
     Proj.github := Some "https://github.com/yalathiy/db-profiler";
     Proj.liveUrl := Some "https://db-profiler-demo.com";
     Proj.image := "https://images.unsplash.com/photo-1460925895917-afdab827c52f?w=800&h=600&fit=crop";
     Proj.featured := true |};
  {| Proj.id := "api-gateway";
     Proj.name := "Lightweight API Gateway";
     Proj.description := "A fast, lightweight API gateway with rate limiting, authentication, and request routing capabilities.";
     Proj.techStack := ["Rust"; "Redis"; "PostgreSQL"; "Docker"];
     Proj.github := Some "https://github.com/yalathiy/api-gateway";
     Proj.liveUrl := None;
     Proj.image := "https://images.unsplash.com/photo-1555949963-ff9fe0c870eb?w=800&h=600&fit=crop";
     Proj.featured := false |}
].

End MockData.

(** ** Blog list view ([BlogPage]) *)

Module BlogPage.

Record State := {
  searchQuery : string;
  selectedTag : option string
}.

(** [useState('')] and [useState(null)]. *)
Definition initial : State :=
  {| searchQuery := ""; selectedTag := None |}.

Section View.
Variable engine : JsString.Engine.
(** The imported dataset. *)
Variable blogPosts : list BlogPostMeta.

Definition allTags : list string :=
  JsSet.spread (JsSet.new (JsArray.flatMap Post.tags blogPosts)).

Definition matchesSearch (searchQuery : string) (post : BlogPostMeta) : bool :=
  JsString.includes (JsString.toLowerCase engine (Post.title post))
                    (JsString.toLowerCase engine searchQuery)
  || JsString.includes (JsString.toLowerCase engine (Post.excerpt post))
                       (JsString.toLowerCase engine searchQuery).

(** [!selectedTag || post.tags.includes(selectedTag)] *)
Definition matchesTag (selectedTag : option string) (post : BlogPostMeta) : bool :=
  negb (JsNullable.truthy selectedTag)
  || match selectedTag with
     | Some t => JsArray.includes (Post.tags post) t
     | None => false
     end.

Definition filteredPosts (searchQuery : string) (selectedTag : option string)
  : list BlogPostMeta :=
  JsArray.filter
    (λ post, matchesSearch searchQuery post
             && matchesTag selectedTag post
             && Post.published post)
    blogPosts.
End View.

(** Event handlers of the filter controls. *)
Definition onChange (value : string) (st : State) : State :=
  {| searchQuery := value; selectedTag := selectedTag st |}.

Definition onClickAllTopics (st : State) : State :=
  {| searchQuery := searchQuery st; selectedTag := None |}.

Definition onClickTag (tag : string) (st : State) : State :=
  {| searchQuery := searchQuery st;
     selectedTag :=
       if JsNullable.strictEq (selectedTag st) tag then None else Some tag |}.

(** What the reader can do with the filter controls. *)
Inductive Event :=
| Change (value : string)
| ClickAllTopics
| ClickTag (tag : string).

Definition step (st : State) (e : Event) : State :=
  match e with
  | Change value => onChange value st
  | ClickAllTopics => onClickAllTopics st
  | ClickTag tag => onClickTag tag st
  end.

Definition run (st : State) (events : list Event) : State :=
  fold_left step events st.

(** The [variant] prop of a badge. *)
Inductive Variant := Default | Outline.

#[global] Instance Variant_eq_dec : EqDecision Variant.
Proof. solve_decision. Defined.

(** A filter badge: its text, its variant and what a click on it does. *)
Record Badge := {
  label : string;
  variant : Variant;
  onClick : Event
}.

(** A card of the list with the target of its two links. *)
Record Card := {
  cardPost : BlogPostMeta;
  to : string
}.

Inductive ListRegion :=
| NoResults
| Cards (cards : list Card).

Section Render.
Variable engine : JsString.Engine.
Variable blogPosts : list BlogPostMeta.

(** The badges of [tag-filters]: "All Topics", then one per tag. *)
Definition tagFilters (st : State) : list Badge :=
  {| label := "All Topics";
     variant := if negb (JsNullable.truthy (selectedTag st)) then Default else Outline;
     onClick := ClickAllTopics |}
  :: map (λ tag,
       {| label := tag;
          variant := if JsNullable.strictEq (selectedTag st) tag
                     then Default else Outline;
          onClick := ClickTag tag |})
     (allTags blogPosts).

(** The region [blog-list]: the cards, or the "no results" message. *)
Definition blogList (st : State) : ListRegion :=
  let filtered := filteredPosts engine blogPosts (searchQuery st) (selectedTag st) in
  if 0 <? length filtered
  then Cards (map (λ post, {| cardPost := post; to := "/blog/" +:+ Post.id post |})
                filtered)
  else NoResults.

(** The states the reader can bring the page into: typing into the search
    box and clicking badges that are on the page. *)
Inductive Reachable : State → Prop :=
| Reachable_initial : Reachable initial
| Reachable_change st value : Reachable st → Reachable (step st (Change value))
| Reachable_click st badge :
    Reachable st → badge ∈ tagFilters st → Reachable (step st (onClick badge)).
End Render.

End BlogPage.


(** ** Promises and the responses of [fetch] *)

Module Promise.

(** How a promise settles; a rejection carries its reason. *)
Inductive Settled (A : Type) : Type :=
| Fulfilled (value : A)
| Rejected (reason : string).
Arguments Fulfilled {A} value.
Arguments Rejected {A} reason.

(** A reaction runs against the state [S] its callbacks may write and
    settles the promise derived from it. *)
Definition Reaction (S A : Type) : Type := S → Settled A * S.

Definition settled {S A} (p : Settled A) : Reaction S A := λ s, (p, s).

(** [p.then(onFulfilled)]: a rejection passes through untouched. *)
Definition then_ {S A B} (p : Reaction S A) (onFulfilled : A → Reaction S B)
  : Reaction S B :=
  λ s, match p s with
       | (Fulfilled a, s') => onFulfilled a s'
       | (Rejected e, s') => (Rejected e, s')
       end.

(** [p.catch(onRejected)]: a fulfilment passes through untouched. *)
Definition catch_ {S A} (p : Reaction S A) (onRejected : string → Reaction S A)
  : Reaction S A :=
  λ s, match p s with
       | (Fulfilled a, s') => (Fulfilled a, s')
       | (Rejected e, s') => onRejected e s'
       end.

(** A callback body that runs its statements in order and returns
    normally. *)
Definition block {S} (statements : list (S → S)) : Reaction S unit :=
  λ s, (Fulfilled tt, fold_left (λ s' statement, statement s') statements s).

End Promise.

Module Fetch.

(** The [Response] a fulfilled [fetch] hands over. [text] is how the
    promise of [response.text()] settles. *)
Record Response := {
  ok : bool;
  status : nat;
  text : Promise.Settled string
}.

End Fetch.

(** ** Article detail view ([BlogPostPage]) *)

Module BlogPostPage.
Import Promise.

(** What the callbacks of the loader write: the two [useState] cells and
    the console. *)
Record State := {
  markdownContent : string;
  loading : bool;
  console : list (string * string)
}.

Definition setMarkdownContent (value : string) (st : State) : State :=
  {| markdownContent := value; loading := loading st; console := console st |}.

Definition setLoading (value : bool) (st : State) : State :=
  {| markdownContent := markdownContent st; loading := value;
     console := console st |}.

Definition console_error (label reason : string) (st : State) : State :=
  {| markdownContent := markdownContent st; loading := loading st;
     console := console st ++ [(label, reason)] |}.

Definition newline : string := String "010" EmptyString.

(** The document shown when loading failed. *)
Definition fallback : string :=
  "# Error loading article" +:+ newline +:+ newline
  +:+ "Sorry, this article could not be loaded.".

(** The chain attached to [fetch(...)], run once the request settles. *)
Definition loadChain (fetched : Settled Fetch.Response) : Reaction State unit :=
  catch_
    (then_
       (then_ (settled fetched) (λ response, settled (Fetch.text response)))
       (λ text, block [setMarkdownContent text; setLoading false]))
    (λ error, block [console_error "Error loading markdown:" error;
                     setMarkdownContent fallback;
                     setLoading false]).

(** A mounted instance of the component. *)
Record Instance := {
  slug : string;
  state : State;
  deps : option (option BlogPostMeta);
  inflight : list string;
  requests : list string
}.

Inductive Body :=
| LoadingIndicator
| Markdown (source : string).

Inductive View :=
| NotFound
| Article (post : BlogPostMeta) (body : Body) (more : list BlogPostMeta).

Inductive Event :=
| Navigate (slug' : string)
| Settle (k : nat) (outcome : Settled Fetch.Response).

Section Component.
(** The imported dataset. *)
Variable blogPosts : list BlogPostMeta.

(** [blogPosts.find(p => p.id === slug)] *)
Definition post (slug : string) : option BlogPostMeta :=
  JsArray.find (λ p, JsString.strictEq (Post.id p) slug) blogPosts.

(** The list under "More Articles". *)
Definition relatedPosts (slug : string) : list BlogPostMeta :=
  JsArray.slice 0 3
    (JsArray.filter
       (λ p, negb (JsString.strictEq (Post.id p) slug) && Post.published p)
       blogPosts).

(** The body of [useEffect]: start a request for the post's document. *)
Definition effect (post : option BlogPostMeta) (i : Instance) : Instance :=
  match post with
  | Some p =>
      let url := "/blogs/" +:+ Post.markdownFile p in
      {| slug := slug i; state := state i; deps := deps i;
         inflight := inflight i ++ [url];
         requests := requests i ++ [url] |}
  | None => i
  end.

(** After a render is committed the effect runs when its dependency
    list [[post]] differs from the one of its previous run, and always
    after the first render. React compares the entries with [Object.is],
    for a post by identity of the object. Two results of [find] over the
    same array by id that are equal as records are the same object, so the
    comparison is modelled as equality of [option BlogPostMeta]. *)
Definition commit (i : Instance) : Instance :=
  let p := post (slug i) in
  if decide (deps i = Some p) then i
  else effect p {| slug := slug i; state := state i; deps := Some p;
                   inflight := inflight i; requests := requests i |}.

Definition mount (slug : string) : Instance :=
  commit {| slug := slug;
            state := {| markdownContent := ""; loading := true;
                        console := [] |};
            deps := None; inflight := []; requests := [] |}.

(** One event in the life of a mounted instance: the route parameter
    changes, or the [k]-th request in flight settles and its chain
    runs. Either is followed by a render and its commit. *)
Definition step (i : Instance) (e : Event) : Instance :=
  match e with
  | Navigate slug' =>
      commit {| slug := slug'; state := state i; deps := deps i;
                inflight := inflight i; requests := requests i |}
  | Settle k outcome =>
      match inflight i !! k with
      | Some _ =>
          commit {| slug := slug i;
                    state := snd (loadChain outcome (state i));
                    deps := deps i;
                    inflight := delete k (inflight i);
                    requests := requests i |}
      | None => i
      end
  end.

Definition run (i : Instance) (events : list Event) : Instance :=
  fold_left step events i.

Definition render (i : Instance) : View :=
  match post (slug i) with
  | None => NotFound
  | Some p =>
      Article p
        (if loading (state i) then LoadingIndicator
         else Markdown (markdownContent (state i)))
        (relatedPosts (slug i))
  end.
End Component.

End BlogPostPage.

(** ** Home page ([HomePage]) *)

Module HomePage.
Section View.
Variable blogPosts : list BlogPostMeta.
Variable projects : list Project.

Definition featuredPosts : list BlogPostMeta :=
  JsArray.slice 0 3 (JsArray.filter (λ post, Post.published post) blogPosts).

Definition featuredProjects : list Project :=
  JsArray.slice 0 3 (JsArray.filter (λ project, Proj.featured project) projects).
End View.

(** The icons imported from the icon set. *)
Inductive Icon := Code | Database | Server | Layers.

Definition interestIcons : list (string * Icon) := [
  ("Low Latency Data Communication", Server);
  ("Database Internals", Database);
  ("System Design", Layers);
  ("Backend Development", Code)
].

(** What ends up in [IconComponent]: an icon, or a member inherited from
    [Object.prototype]. *)
Inductive IconComponent :=
| Lucide (icon : Icon)
| PrototypeMember (key : string).

(** [interestIcons[interest] || Code] *)
Definition iconFor (interest : string) : IconComponent :=
  match JsObject.get interestIcons interest with
  | JsObject.Own icon => Lucide icon
  | JsObject.Inherited key => PrototypeMember key
  | JsObject.Undefined => Lucide Code
  end.

(** The cards of "Areas of Expertise". *)
Definition interestCards (interests : list string) : list (string * IconComponent) :=
  map (λ interest, (interest, iconFor interest)) interests.
End HomePage.

(** ** Header with the navigation entries ([Header]) *)

Module Header.

Record NavLink := { path : string; label : string }.

Definition navLinks : list NavLink := [
  {| path := "/"; label := "Home" |};
  {| path := "/about"; label := "About" |};
  {| path := "/blog"; label := "Blog" |};
  {| path := "/projects"; label := "Projects" |};
  {| path := "/contact"; label := "Contact" |}
].

(** [location.pathname === path] *)
Definition isActive (pathname : string) (path : string) : bool :=
  JsString.strictEq pathname path.

(** The navigation entries as rendered, each with its "active" mark. *)
Definition render (pathname : string) : list (NavLink * bool) :=
  map (λ link, (link, isActive pathname (path link))) navLinks.

(** The entries that carry the "active" class. *)
Definition activeLinks (pathname : string) : list NavLink :=
  (filter (λ entry, entry.2 = true) (render pathname)).*1.

(** The mobile menu: [useState(false)], the toggle button and the click
    handler every navigation link carries. *)
Definition initialMenu : bool := false.

Inductive Event :=
| ClickToggle
| ClickLink (link : NavLink).

Definition step (isMenuOpen : bool) (e : Event) : bool :=
  match e with
  | ClickToggle => negb isMenuOpen
  | ClickLink _ => false
  end.

Definition run (isMenuOpen : bool) (events : list Event) : bool :=
  fold_left step events isMenuOpen.

(** The class of the [nav] element. *)
Definition navClass (isMenuOpen : bool) : string :=
  "nav " +:+ (if isMenuOpen then "nav-open" else "").

End Header.

(** ** About page ([AboutPage]) *)

Module AboutPage.

Definition descriptions : list (string * string) := [
  ("Low Latency Data Communication",
   "Optimizing data transfer and communication protocols for microsecond-level latency. Experience with TCP/UDP optimizations, zero-copy techniques, and high-performance networking.");
  ("Database Internals",
   "Deep understanding of database architecture, storage engines, query optimization, and indexing strategies. Exploring B-Trees, LSM-Trees, and distributed database consensus protocols.");
  ("System Design",
   "Designing scalable, reliable distributed systems. Focus on trade-offs, CAP theorem, consistency models, and architectural patterns for high-availability systems.");
  ("Backend Development",
   "Building robust, performant backend services with clean architecture. Experience with microservices, API design, caching strategies, and message queues.")
].

Definition defaultDescription : string :=
  "Passionate about creating efficient and scalable solutions.".

(** What [getInterestDescription] returns: a text, or a member inherited
    from [Object.prototype]. *)
Inductive Description :=
| Text (text : string)
| PrototypeMember (key : string).

(** [descriptions[interest] || '...'] *)
Definition getInterestDescription (interest : string) : Description :=
  match JsObject.get descriptions interest with
  | JsObject.Own text => if JsString.truthy text then Text text else Text defaultDescription
  | JsObject.Inherited key => PrototypeMember key
  | JsObject.Undefined => Text defaultDescription
  end.

(** The cards of "What I Focus On". *)
Definition interestsList (interests : list string) : list (string * Description) :=
  map (λ interest, (interest, getInterestDescription interest)) interests.

End AboutPage.

(** ** Projects page ([ProjectsPage]) *)

Module ProjectsPage.

Record LinkButton := {
  caption : string;
  href : string
}.

Record Card := {
  project : Project;
  featuredBadge : bool;
  links : list LinkButton
}.

(** [url && <Button>...</Button>]: a button for a non-empty URL, nothing
    for [null] and for the empty string. *)
Definition linkButton (caption : string) (url : option string) : list LinkButton :=
  match url with
  | Some u => if JsString.truthy u then [{| caption := caption; href := u |}] else []
  | None => []
  end.

Definition render (projects : list Project) : list Card :=
  map (λ project,
         {| project := project;
            featuredBadge := Proj.featured project;
            links := linkButton "View Code" (Proj.github project)
                     ++ linkButton "Live Demo" (Proj.liveUrl project) |})
      projects.

End ProjectsPage.

(** ** Contact page ([ContactPage]) *)

Module ContactPage.

Record Method := {
  label : string;
  value : string;
  link : string;
  color : string
}.

Definition contactMethods (social : Profile.Social) : list Method := [
  {| label := "GitHub"; value := "@yalathiy";
     link := Profile.github social; color := "#333333" |};
  {| label := "LinkedIn"; value := "Yash Lathiya";
     link := Profile.linkedin social; color := "#0077b5" |};
  {| label := "Email"; value := Profile.email social;
     link := "mailto:" +:+ Profile.email social; color := "#00d4ff" |}
].

(** The anchor of a contact method; an attribute that is [undefined] is
    [None]. *)
Record Anchor := {
  href : string;
  target : option string;
  rel : option string
}.

Definition anchor (method : Method) : Anchor :=
  {| href := link method;
     target := if negb (JsString.strictEq (label method) "Email")
               then Some "_blank" else None;
     rel := if negb (JsString.strictEq (label method) "Email")
            then Some "noopener noreferrer" else None |}.

Definition render (social : Profile.Social) : list Anchor :=
  map anchor (contactMethods social).

End ContactPage.

(** The path of the article route [/blog/:slug] for a given slug. *)
Definition articlePath (slug : string) : string := "/blog/" +:+ slug.

(** ** A dataset with a draft

    The shipped dataset has no unpublished post; this one adds a draft in
    second position to exercise the published flag. *)

Module Fixture.

Definition draft : BlogPostMeta :=
  {| Post.id := "wal-notes";
     Post.title := "Notes on Write-Ahead Logging";
     Post.excerpt := "Unfinished notes on durability and group commit.";
     Post.date := "2025-01-12";
     Post.readTime := "5 min read";
     Post.tags := ["Storage"; "Database"];
     Post.markdownFile := "wal-notes.md";
     Post.published := false |}.

Definition blogPosts : list BlogPostMeta :=
  take 1 MockData.blogPosts ++ draft :: drop 1 MockData.blogPosts.

End Fixture.

(** ** Specification vocabulary *)

(** [Selects P l r]: [r] consists of exactly the elements of [l] that
    satisfy [P], each as often as in [l] and in the order of [l]. *)
Inductive Selects {A : Type} (P : A → Prop) : list A → list A → Prop :=
| Selects_nil : Selects P [] []
| Selects_keep x l r : P x → Selects P l r → Selects P (x :: l) (x :: r)
| Selects_skip x l r : ¬ P x → Selects P l r → Selects P (x :: l) r.

Module Spec.

(** The lowered query occurs in the lowered text: containment that
    ignores letter case, with the case mapping of the engine. *)
Definition containsIgnoringCase (engine : JsString.Engine) (text q : string) : Prop :=
  ∃ pre suf,
    JsString.toLowerCase engine text
    = pre +:+ JsString.toLowerCase engine q +:+ suf.

(** Some contiguous part of an ASCII [text] equals [q] up to the case of
    the letters [A]..[Z]. *)
Definition asciiContains (text q : string) : Prop :=
  ∃ pre mid suf,
    text = pre +:+ mid +:+ suf
    ∧ JsString.asciiLower mid = JsString.asciiLower q.

Definition matchesQuery (engine : JsString.Engine) (q : string) (p : BlogPostMeta) : Prop :=
  containsIgnoringCase engine (Post.title p) q
  ∨ containsIgnoringCase engine (Post.excerpt p) q.

(** The tag rule as the specification words it: no tag, or a tag of the
    post. *)
Definition tagRuleStated (t : option string) (p : BlogPostMeta) : Prop :=
  t = None ∨ ∃ s, t = Some s ∧ s ∈ Post.tags p.

(** The tag rule of the view: the empty string selects nothing either. *)
Definition tagRule (t : option string) (p : BlogPostMeta) : Prop :=
  t = None ∨ t = Some "" ∨ ∃ s, t = Some s ∧ s ∈ Post.tags p.

Definition listedStated (engine : JsString.Engine) (q : string) (t : option string)
    (p : BlogPostMeta) : Prop :=
  Post.published p = true ∧ matchesQuery engine q p ∧ tagRuleStated t p.

Definition listed (engine : JsString.Engine) (q : string) (t : option string)
    (p : BlogPostMeta) : Prop :=
  Post.published p = true ∧ matchesQuery engine q p ∧ tagRule t p.

(** A post qualifies as related to the article [slug]. *)
Definition relatedTo (slug : string) (p : BlogPostMeta) : Prop :=
  Post.id p ≠ slug ∧ Post.published p = true.

(** How often the slug changes in a run of the article view. *)
Fixpoint navigations (events : list BlogPostPage.Event) : nat :=
  match events with
  | [] => 0
  | BlogPostPage.Navigate _ :: events' => S (navigations events')
  | BlogPostPage.Settle _ _ :: events' => navigations events'
  end.

(** What every step of the article view keeps: the recorded dependency
    is the post of the slug, every requested URL is the document of a post
    of the dataset, and the requests in flight are among the requests
    made. *)
Definition Sound (blogPosts : list BlogPostMeta) (i : BlogPostPage.Instance) : Prop :=
  BlogPostPage.deps i
  = Some (BlogPostPage.post blogPosts (BlogPostPage.slug i))
  ∧ Forall (λ url, ∃ p, p ∈ blogPosts ∧ url = "/blogs/" +:+ Post.markdownFile p)
      (BlogPostPage.requests i)
  ∧ BlogPostPage.inflight i `sublist_of` BlogPostPage.requests i.

End Spec.

(** ** Facts about the primitives *)

Section SelectsFacts.
Context {A : Type} (P : A → Prop).

Lemma Selects_sublist l r : Selects P l r → r `sublist_of` l.
Proof.
  induction 1; [constructor | by apply sublist_skip | by apply sublist_cons].
Qed.

Lemma Selects_elem_of l r x : Selects P l r → x ∈ r ↔ x ∈ l ∧ P x.
Proof.
  induction 1 as [|y l r Hy _ IH|y l r Hy _ IH].
  - split; [by intros ?%elem_of_nil | by intros [?%elem_of_nil _]].
  - rewrite !elem_of_cons, IH. split.
    + intros [->|[? ?]]; split; auto.
    + intros [[->|?] ?]; auto.
  - rewrite elem_of_cons, IH. split.
    + intros [? ?]; split; auto.
    + intros [[->|?] ?]; [done | auto].
Qed.

Lemma Selects_functional l r1 r2 : Selects P l r1 → Selects P l r2 → r1 = r2.
Proof.
  intros H1; revert r2.
  induction H1 as [|y l r Hy _ IH|y l r Hy _ IH]; intros r2 H2;
    inversion H2; subst.
  - done.
  - f_equal. by apply IH.
  - done.
  - done.
  - by apply IH.
Qed.

Lemma Selects_length_le l r : Selects P l r → length r ≤ length l.
Proof. intros ?%Selects_sublist. by apply sublist_length. Qed.
End SelectsFacts.

(** Selections by rules that agree on the list agree. *)
Lemma Selects_ext {A : Type} (P Q : A → Prop) (l r : list A) :
  (∀ x, x ∈ l → P x ↔ Q x) → Selects P l r → Selects Q l r.
Proof.
  intros H HP. induction HP as [|x l r Hx _ IH|x l r Hx _ IH].
  - constructor.
  - apply Selects_keep; [apply H; [by left | done]|].
    apply IH. intros y Hy. apply H. by right.
  - apply Selects_skip; [rewrite <- H; [done | by left]|].
    apply IH. intros y Hy. apply H. by right.
Qed.

Section ArrayFacts.
Context {A : Type}.
Implicit Types (f : A → bool) (l : list A).

Lemma filter_loop f l acc :
  fold_left (λ acc x, if f x then acc ++ [x] else acc) l acc
  = acc ++ JsArray.filter f l.
Proof.
  unfold JsArray.filter. revert acc.
  induction l as [|x l IH]; intros acc; simpl.
  - by rewrite app_nil_r.
  - rewrite IH. symmetry. rewrite IH. symmetry.
    destruct (f x); simpl; [by rewrite <- app_assoc | done].
Qed.

Lemma filter_nil f : JsArray.filter f [] = [].
Proof. done. Qed.

Lemma filter_cons f x l :
  JsArray.filter f (x :: l)
  = if f x then x :: JsArray.filter f l else JsArray.filter f l.
Proof.
  unfold JsArray.filter at 1. simpl. rewrite filter_loop. by destruct (f x).
Qed.

(** The loop of [filter] selects exactly what its callback accepts. *)
Lemma filter_Selects (P : A → Prop) f l :
  (∀ x, f x = true ↔ P x) → Selects P l (JsArray.filter f l).
Proof.
  intros Hf. induction l as [|x l IH]; [constructor|].
  rewrite filter_cons. destruct (f x) eqn:Hx.
  - apply Selects_keep; [by apply Hf | done].
  - apply Selects_skip; [|done]. rewrite <- Hf. congruence.
Qed.

Lemma slice_from_0 n l : JsArray.slice 0 n l = take n l.
Proof.
  unfold JsArray.slice. rewrite drop_0, Nat.sub_0_r.
  destruct (decide (n ≤ length l)).
  - by rewrite Nat.min_l.
  - rewrite Nat.min_r, !take_ge by lia. done.
Qed.

Lemma find_Some_first f l x :
  JsArray.find f l = Some x → f x = true ∧ x ∈ l.
Proof.
  induction l as [|y l IH]; simpl; [done|].
  destruct (f y) eqn:Hy.
  - intros [= ->]. split; [done | by left].
  - intros [? ?]%IH. split; [done | by right].
Qed.

Lemma find_None f l :
  JsArray.find f l = None ↔ ∀ x, x ∈ l → f x = false.
Proof.
  induction l as [|y l IH]; simpl.
  - split; [by intros _ x ?%elem_of_nil | done].
  - destruct (f y) eqn:Hy.
    + split; [done|]. intros H.
      assert (f y = false) by (apply H; by left). congruence.
    + rewrite IH. split.
      * intros H x [->|?]%elem_of_cons; auto.
      * intros H x ?. apply H. by right.
Qed.
End ArrayFacts.

Lemma Array_includes_elem_of (arr : list string) (s : string) :
  JsArray.includes arr s = true ↔ s ∈ arr.
Proof.
  induction arr as [|x arr IH]; simpl.
  - split; [done | by intros ?%elem_of_nil].
  - rewrite orb_true_iff, IH, elem_of_cons. unfold JsString.strictEq.
    rewrite String.eqb_eq. naive_solver.
Qed.

Lemma flatMap_elem_of {A B} (f : A → list B) (arr : list A) (y : B) :
  y ∈ JsArray.flatMap f arr ↔ ∃ x, x ∈ arr ∧ y ∈ f x.
Proof.
  induction arr as [|x arr IH]; simpl.
  - split; [by intros ?%elem_of_nil | by intros (? & ?%elem_of_nil & _)].
  - rewrite elem_of_app, IH. split.
    + intros [?|(z & ? & ?)]; [exists x | exists z]; split; try done;
        [by left | by right].
    + intros (z & [->|?]%elem_of_cons & ?); [by left | right; by exists z].
Qed.

Lemma Set_add_NoDup members s : NoDup members → NoDup (JsSet.add members s).
Proof.
  intros Hnd. unfold JsSet.add.
  destruct (JsArray.includes members s) eqn:Hin; [done|].
  apply NoDup_app. split_and!; [done | | apply NoDup_singleton].
  intros x Hx ->%list_elem_of_singleton.
  apply Array_includes_elem_of in Hx. congruence.
Qed.

Lemma Set_add_elem_of members s x :
  x ∈ JsSet.add members s ↔ x ∈ members ∨ x = s.
Proof.
  unfold JsSet.add. destruct (JsArray.includes members s) eqn:Hin.
  - apply Array_includes_elem_of in Hin. naive_solver.
  - rewrite elem_of_app, list_elem_of_singleton. done.
Qed.

Lemma Set_new_loop iterable members :
  NoDup members →
  NoDup (fold_left JsSet.add iterable members)
  ∧ ∀ x, x ∈ fold_left JsSet.add iterable members ↔ x ∈ members ∨ x ∈ iterable.
Proof.
  revert members. induction iterable as [|s iterable IH]; intros members Hnd; simpl.
  - split; [done|]. intros x. rewrite elem_of_nil. naive_solver.
  - destruct (IH _ (Set_add_NoDup _ s Hnd)) as [Hnd' Hel]. split; [done|].
    intros x. rewrite Hel, Set_add_elem_of, elem_of_cons. naive_solver.
Qed.

Section StringFacts.
Implicit Types (s sub pre suf : string).

Lemma append_empty_r s : s +:+ "" = s.
Proof. induction s as [|c s IH]; simpl; [done | by f_equal]. Qed.

Lemma append_assoc s1 s2 s3 : (s1 +:+ s2) +:+ s3 = s1 +:+ s2 +:+ s3.
Proof. induction s1 as [|c s1 IH]; simpl; [done | by f_equal]. Qed.

Lemma startsWith_spec s sub :
  JsString.startsWith s sub = true ↔ ∃ suf, s = sub +:+ suf.
Proof.
  revert s. induction sub as [|c sub IH]; intros s; simpl.
  - split; [by exists s | done].
  - destruct s as [|d s].
    + split; [done | by intros [suf [=]]].
    + rewrite andb_true_iff, IH. split.
      * intros [->%Ascii.eqb_eq [suf ->]]. by exists suf.
      * intros [suf [= -> ->]]. split; [apply Ascii.eqb_refl | by exists suf].
Qed.

(** [includes] finds [sub] exactly when it occurs somewhere in [s]. *)
Lemma String_includes_spec s sub :
  JsString.includes s sub = true ↔ ∃ pre suf, s = pre +:+ sub +:+ suf.
Proof.
  induction s as [|c s IH]; simpl; rewrite orb_true_iff.
  - rewrite startsWith_spec. split.
    + intros [[suf ->]|[=]]. by exists "", suf.
    + intros (pre & suf & H). left. destruct pre; [by exists suf | done].
  - rewrite startsWith_spec, IH. split.
    + intros [[suf ->]|(pre & suf & ->)];
        [by exists "", suf | by exists (String c pre), suf].
    + intros (pre & suf & H). destruct pre as [|d pre]; simpl in H.
      * left. by exists suf.
      * right. injection H as -> ->. by exists pre, suf.
Qed.

Lemma asciiLower_append s1 s2 :
  JsString.asciiLower (s1 +:+ s2)
  = JsString.asciiLower s1 +:+ JsString.asciiLower s2.
Proof. induction s1 as [|c s1 IH]; simpl; [done | by f_equal]. Qed.

(** ASCII lowering works unit by unit, so a split of the lowered text
    comes from a split of the text itself. *)
Lemma asciiLower_split s a b :
  JsString.asciiLower s = a +:+ b →
  ∃ s1 s2, s = s1 +:+ s2
           ∧ JsString.asciiLower s1 = a ∧ JsString.asciiLower s2 = b.
Proof.
  revert s. induction a as [|c a IH]; intros s H; simpl in H.
  - by exists "", s.
  - destruct s as [|d s]; simpl in H; [done|].
    injection H as Hc Hs. destruct (IH _ Hs) as (s1 & s2 & -> & <- & <-).
    exists (String d s1), s2. simpl. by rewrite Hc.
Qed.

Lemma isAscii_append s1 s2 :
  JsString.isAscii (s1 +:+ s2) = JsString.isAscii s1 && JsString.isAscii s2.
Proof.
  induction s1 as [|c s1 IH]; simpl; [done|].
  by rewrite IH, andb_assoc.
Qed.
End StringFacts.

(** ** The case mapping of the engine *)

Section EngineFacts.
Variable engine : JsString.Engine.

Lemma toLowerCase_empty : JsString.toLowerCase engine "" = "".
Proof. by rewrite JsString.toLowerCase_ascii. Qed.

(** The test of the search box decides whether the lowered query occurs
    in the lowered text. *)
Lemma includes_lowered_spec text q :
  JsString.includes (JsString.toLowerCase engine text)
    (JsString.toLowerCase engine q) = true
  ↔ Spec.containsIgnoringCase engine text q.
Proof. apply String_includes_spec. Qed.

(** The empty query occurs in every text. *)
Lemma containsIgnoringCase_empty text : Spec.containsIgnoringCase engine text "".
Proof.
  exists "", (JsString.toLowerCase engine text). by rewrite toLowerCase_empty.
Qed.

(** On ASCII text the engine lowers [A]..[Z] and nothing else, so there
    containment up to case is containment of the ASCII lower-case forms. *)
Lemma containsIgnoringCase_ascii text q :
  JsString.isAscii text = true → JsString.isAscii q = true →
  Spec.containsIgnoringCase engine text q
  ↔ ∃ pre suf, JsString.asciiLower text = pre +:+ JsString.asciiLower q +:+ suf.
Proof.
  intros Ht Hq. unfold Spec.containsIgnoringCase.
  by rewrite !JsString.toLowerCase_ascii.
Qed.

(** On ASCII text the test of the search box finds the query exactly when
    some part of the text equals it up to the case of [A]..[Z]. *)
Lemma containsIgnoringCase_fragment text q :
  JsString.isAscii text = true → JsString.isAscii q = true →
  Spec.containsIgnoringCase engine text q ↔ Spec.asciiContains text q.
Proof.
  intros Ht Hq. rewrite containsIgnoringCase_ascii by done.
  unfold Spec.asciiContains. split.
  - intros (pre' & suf' & H).
    apply asciiLower_split in H as (pre & rest & -> & <- & H).
    apply asciiLower_split in H as (mid & suf & -> & H & <-).
    by exists pre, mid, suf.
  - intros (pre & mid & suf & -> & <-).
    exists (JsString.asciiLower pre), (JsString.asciiLower suf).
    by rewrite !asciiLower_append.
Qed.
End EngineFacts.

(** ** The blog list view *)

Section BlogPageFacts.
Variable engine : JsString.Engine.
Variable blogPosts : list BlogPostMeta.

Lemma matchesSearch_spec q p :
  BlogPage.matchesSearch engine q p = true ↔ Spec.matchesQuery engine q p.
Proof.
  unfold BlogPage.matchesSearch, Spec.matchesQuery.
  by rewrite orb_true_iff, !includes_lowered_spec.
Qed.

Lemma matchesTag_spec t p :
  BlogPage.matchesTag t p = true ↔ Spec.tagRule t p.
Proof.
  unfold BlogPage.matchesTag, Spec.tagRule.
  destruct t as [[|c s]|]; simpl.
  - split; [by right; left | done].
  - rewrite Array_includes_elem_of. split.
    + intros ?. right; right. by eexists.
    + by intros [[=]|[[=]|(? & [= <-] & ?)]].
  - split; [by left | done].
Qed.

Lemma filteredPosts_callback_spec q t p :
  BlogPage.matchesSearch engine q p && BlogPage.matchesTag t p && Post.published p = true
  ↔ Spec.listed engine q t p.
Proof.
  unfold Spec.listed.
  rewrite !andb_true_iff, matchesSearch_spec, matchesTag_spec. tauto.
Qed.

Lemma filteredPosts_Selects q t :
  Selects (Spec.listed engine q t) blogPosts (BlogPage.filteredPosts engine blogPosts q t).
Proof. apply filter_Selects, filteredPosts_callback_spec. Qed.
End BlogPageFacts.

(** Unless the selected tag is the empty string, the tag rule of the view
    is the rule "no tag, or a tag of the post". *)
Lemma tagRule_stated t p :
  t ≠ Some "" → Spec.tagRule t p ↔ Spec.tagRuleStated t p.
Proof. unfold Spec.tagRule, Spec.tagRuleStated. intros Ht. tauto. Qed.

(** A tag that can be selected on a dataset without an empty tag is not
    the empty string. *)
Lemma selectable_tag_not_empty (blogPosts : list BlogPostMeta) (t : option string) :
  "" ∉ BlogPage.allTags blogPosts →
  t = None ∨ (∃ tag, t = Some tag ∧ tag ∈ BlogPage.allTags blogPosts) →
  t ≠ Some "".
Proof. intros Hempty [->|(tag & -> & Htag)]; [done|]. by intros [= ->]. Qed.

(** No post of the shipped dataset has the empty string as a tag. *)
Example shipped_tags_not_empty : "" ∉ BlogPage.allTags MockData.blogPosts.
Proof. apply (bool_decide_unpack _). by vm_compute. Qed.

(** The empty string in the selection cell counts as no selection. *)
Lemma empty_selection_is_no_selection (engine : JsString.Engine)
    (blogPosts : list BlogPostMeta) (q : string) :
  BlogPage.filteredPosts engine blogPosts q (Some "")
  = BlogPage.filteredPosts engine blogPosts q None.
Proof. done. Qed.

(** The titles and excerpts of the shipped dataset are ASCII. *)
Example shipped_text_ascii :
  Forall (λ p, JsString.isAscii (Post.title p) = true
               ∧ JsString.isAscii (Post.excerpt p) = true) MockData.blogPosts.
Proof. repeat constructor. Qed.

(** C1. For every query [q] and every tag [t], [null] included, the blog
    list shows exactly the posts of the dataset, in dataset order and never
    re-sorted, that are published, whose title or excerpt contains [q] with
    letter case ignored, and for which [t] is [null] or one of the post's
    tags. The empty query with no tag shows exactly the published posts.
    A tag is [null] or a label that is not empty: the selection cell only
    ever holds [null] or a tag of the vocabulary, and no post of the shipped
    dataset has an empty tag. Letter case is ignored the way the engine
    lowers text, whatever it does outside the ASCII range; for an ASCII
    query and a post with ASCII title and excerpt, as all shipped ones are,
    this is to say that some part of the title or excerpt equals the query
    up to the case of [A]..[Z]. *)
Theorem filteredPosts_exact (engine : JsString.Engine)
    (blogPosts : list BlogPostMeta) (q : string) (t : option string) :
  t ≠ Some "" →
  let shown := BlogPage.filteredPosts engine blogPosts q t in
  Selects (Spec.listedStated engine q t) blogPosts shown
  ∧ shown `sublist_of` blogPosts
  ∧ (∀ p, p ∈ shown ↔ p ∈ blogPosts ∧ Spec.listedStated engine q t p)
  ∧ Selects (λ p, Post.published p = true) blogPosts
      (BlogPage.filteredPosts engine blogPosts "" None)
  ∧ (∀ p, JsString.isAscii q = true →
          JsString.isAscii (Post.title p) = true →
          JsString.isAscii (Post.excerpt p) = true →
          p ∈ shown
          ↔ p ∈ blogPosts
            ∧ Post.published p = true
            ∧ (Spec.asciiContains (Post.title p) q
               ∨ Spec.asciiContains (Post.excerpt p) q)
            ∧ Spec.tagRuleStated t p).
Proof.
  intros Ht shown.
  assert (Selects (Spec.listedStated engine q t) blogPosts shown) as Hsel.
  { eapply Selects_ext; [|apply filteredPosts_Selects].
    intros p _. unfold Spec.listed, Spec.listedStated.
    by rewrite tagRule_stated. }
  split_and!.
  - done.
  - by eapply Selects_sublist.
  - intros p. by eapply Selects_elem_of.
  - apply filter_Selects. intros p.
    rewrite filteredPosts_callback_spec. unfold Spec.listed, Spec.matchesQuery.
    split; [tauto|]. intros Hp. split_and!.
    + done.
    + left. apply containsIgnoringCase_empty.
    + by left.
  - intros p Hq Htitle Hexcerpt.
    rewrite (Selects_elem_of _ _ _ p Hsel).
    unfold Spec.listedStated, Spec.matchesQuery.
    by rewrite !containsIgnoringCase_fragment.
Qed.

Lemma filteredPosts_exact_witness :
  Some "Database" ≠ Some ""
  ∧ let shown := BlogPage.filteredPosts JsString.asciiEngine MockData.blogPosts
                   "QUERY" (Some "Database") in
    Selects (Spec.listedStated JsString.asciiEngine "QUERY" (Some "Database"))
      MockData.blogPosts shown
    ∧ shown `sublist_of` MockData.blogPosts
    ∧ (∀ p, p ∈ shown
            ↔ p ∈ MockData.blogPosts
              ∧ Spec.listedStated JsString.asciiEngine "QUERY" (Some "Database") p)
    ∧ Selects (λ p, Post.published p = true) MockData.blogPosts
        (BlogPage.filteredPosts JsString.asciiEngine MockData.blogPosts "" None)
    ∧ (∀ p, JsString.isAscii "QUERY" = true →
            JsString.isAscii (Post.title p) = true →
            JsString.isAscii (Post.excerpt p) = true →
            p ∈ shown
            ↔ p ∈ MockData.blogPosts
              ∧ Post.published p = true
              ∧ (Spec.asciiContains (Post.title p) "QUERY"
                 ∨ Spec.asciiContains (Post.excerpt p) "QUERY")
              ∧ Spec.tagRuleStated (Some "Database") p).
Proof.
  assert (Some "Database" ≠ Some "") as H by discriminate.
  split; [exact H|].
  exact (filteredPosts_exact JsString.asciiEngine MockData.blogPosts "QUERY"
           (Some "Database") H).
Defined.

(** On the shipped data the query [QUERY] under the tag [Database]
    leaves one post. *)
Example filteredPosts_shipped :
  Post.id <$> BlogPage.filteredPosts JsString.asciiEngine MockData.blogPosts
                "QUERY" (Some "Database")
  = ["postgres-query-optimization"].
Proof. by vm_compute. Qed.

(** C6. The tag choices offered on the blog list are the union of the tag
    lists of all posts of the dataset, whatever their published flag, each
    tag once. *)
Theorem allTags_union (blogPosts : list BlogPostMeta) :
  NoDup (BlogPage.allTags blogPosts)
  ∧ (∀ tag, tag ∈ BlogPage.allTags blogPosts
            ↔ ∃ p, p ∈ blogPosts ∧ tag ∈ Post.tags p)
  ∧ list_to_set (BlogPage.allTags blogPosts)
    =@{gset string} ⋃ ((list_to_set ∘ Post.tags) <$> blogPosts).
Proof.
  unfold BlogPage.allTags, JsSet.spread, JsSet.new.
  destruct (Set_new_loop (JsArray.flatMap Post.tags blogPosts) [] (NoDup_nil_2))
    as [Hnd Hel].
  assert (∀ tag, tag ∈ fold_left JsSet.add (JsArray.flatMap Post.tags blogPosts) []
                 ↔ ∃ p, p ∈ blogPosts ∧ tag ∈ Post.tags p) as Hmem.
  { intros tag. rewrite Hel, flatMap_elem_of, elem_of_nil. tauto. }
  split_and!; [done | done |].
  apply set_eq. intros tag.
  rewrite elem_of_list_to_set, Hmem, elem_of_union_list. split.
  - intros (p & Hp & Htag). exists (list_to_set (Post.tags p)). split.
    + apply list_elem_of_fmap. by exists p.
    + by apply elem_of_list_to_set.
  - intros (X & (p & -> & Hp)%list_elem_of_fmap & Htag).
    exists p. split; [done|]. by apply elem_of_list_to_set in Htag.
Qed.

Lemma onClickTag_selectedTag st tag :
  BlogPage.selectedTag (BlogPage.onClickTag tag st)
  = if decide (BlogPage.selectedTag st = Some tag) then None else Some tag.
Proof.
  unfold BlogPage.onClickTag, JsNullable.strictEq; simpl.
  destruct (BlogPage.selectedTag st) as [s|]; [|by case_decide].
  unfold JsString.strictEq. destruct (String.eqb_spec s tag) as [->|Hne].
  - by rewrite decide_True.
  - rewrite decide_False; [done | congruence].
Qed.

(** The selection is [null] or a tag that was clicked. *)
Lemma selectedTag_was_clicked (events : list BlogPage.Event) (st : BlogPage.State) :
  BlogPage.selectedTag (BlogPage.run st events) = BlogPage.selectedTag st
  ∨ BlogPage.selectedTag (BlogPage.run st events) = None
  ∨ ∃ tag, BlogPage.ClickTag tag ∈ events
           ∧ BlogPage.selectedTag (BlogPage.run st events) = Some tag.
Proof.
  revert st. induction events as [|e events IH]; intros st; [by left|].
  change (BlogPage.run st (e :: events))
    with (BlogPage.run (BlogPage.step st e) events).
  destruct (IH (BlogPage.step st e)) as [->|[->|(tag & Hin & ->)]].
  - destruct e as [value| |tag]; cbn [BlogPage.step].
    + by left.
    + right; by left.
    + rewrite onClickTag_selectedTag. case_decide; [right; by left|].
      right; right. exists tag. split; [by left | done].
  - right; by left.
  - right; right. exists tag. split; [by right | done].
Qed.

(** C9. A click on a tag badge toggles the selection: on the selected tag
    it clears the selection, on any other tag it makes that tag the
    selection, replacing the previous one; the search text is untouched.
    The selection is a single cell: whatever the reader does from the
    initial state, it is [null] or one tag that was clicked. *)
Theorem onClickTag_toggles (st : BlogPage.State) (tag : string)
    (events : list BlogPage.Event) :
  BlogPage.selectedTag (BlogPage.onClickTag tag st)
  = (if decide (BlogPage.selectedTag st = Some tag) then None else Some tag)
  ∧ BlogPage.searchQuery (BlogPage.onClickTag tag st) = BlogPage.searchQuery st
  ∧ (BlogPage.selectedTag (BlogPage.run BlogPage.initial events) = None
     ∨ ∃ clicked,
         BlogPage.ClickTag clicked ∈ events
         ∧ BlogPage.selectedTag (BlogPage.run BlogPage.initial events)
           = Some clicked).
Proof.
  split_and!; [apply onClickTag_selectedTag | done |].
  destruct (selectedTag_was_clicked events BlogPage.initial) as [H|[H|H]];
    [left | left | right]; done.
Qed.

(** Two clicks on the same badge select and clear it; a click on another
    badge replaces the selection. *)
Example toggle_database :
  BlogPage.selectedTag
    (BlogPage.run BlogPage.initial [BlogPage.ClickTag "Database"])
  = Some "Database"
  ∧ BlogPage.selectedTag
      (BlogPage.run BlogPage.initial
         [BlogPage.ClickTag "Database"; BlogPage.ClickTag "Database"])
    = None
  ∧ BlogPage.selectedTag
      (BlogPage.run BlogPage.initial
         [BlogPage.ClickTag "Database"; BlogPage.ClickTag "Backend"])
    = Some "Backend".
Proof. by vm_compute. Qed.

(** ** First three qualifying entries *)

Section FirstThree.
Context {A : Type} (P : A → Prop) (f : A → bool).
Hypothesis f_spec : ∀ x, f x = true ↔ P x.

(** [arr.filter(f).slice(0, 3)] is the first three entries that qualify,
    in the order of [arr], and fewer when fewer qualify. *)
Lemma filter_slice_first_three (arr : list A) :
  ∃ qualifying,
    Selects P arr qualifying
    ∧ JsArray.slice 0 3 (JsArray.filter f arr) = take 3 qualifying
    ∧ length (JsArray.slice 0 3 (JsArray.filter f arr))
      = Nat.min 3 (length qualifying)
    ∧ Forall (λ x, P x ∧ x ∈ arr) (JsArray.slice 0 3 (JsArray.filter f arr)).
Proof.
  exists (JsArray.filter f arr).
  pose proof (filter_Selects P f arr f_spec) as Hsel.
  rewrite slice_from_0. split_and!; [done | done | apply length_take |].
  apply Forall_forall. intros x Hx%subseteq_take.
  by apply (Selects_elem_of _ _ _ _ Hsel) in Hx as [? ?].
Qed.
End FirstThree.

Lemma relatedPosts_callback_spec slug p :
  negb (JsString.strictEq (Post.id p) slug) && Post.published p = true
  ↔ Spec.relatedTo slug p.
Proof.
  unfold Spec.relatedTo, JsString.strictEq.
  rewrite andb_true_iff, negb_true_iff, String.eqb_neq. done.
Qed.

(** C5. For every slug [S] the list under "More Articles" is the first
    three entries of the dataset, in dataset order, with an id other than
    [S] and published; the post [S] is never in it, and with fewer than
    three qualifying entries it holds just those. *)
Theorem relatedPosts_first_three (blogPosts : list BlogPostMeta) (slug : string) :
  ∃ qualifying,
    Selects (Spec.relatedTo slug) blogPosts qualifying
    ∧ BlogPostPage.relatedPosts blogPosts slug = take 3 qualifying
    ∧ length (BlogPostPage.relatedPosts blogPosts slug)
      = Nat.min 3 (length qualifying)
    ∧ Forall (λ p, Spec.relatedTo slug p ∧ p ∈ blogPosts)
        (BlogPostPage.relatedPosts blogPosts slug).
Proof.
  apply (filter_slice_first_three (Spec.relatedTo slug)).
  intros p. apply relatedPosts_callback_spec.
Qed.

(** C10. "Latest Articles" on the home page shows the first three
    published posts of the dataset and "Featured Projects" the first three
    featured projects, both in dataset order and without padding. *)
Theorem featured_first_three (blogPosts : list BlogPostMeta) (projects : list Project) :
  (∃ publishedPosts,
     Selects (λ post, Post.published post = true) blogPosts publishedPosts
     ∧ HomePage.featuredPosts blogPosts = take 3 publishedPosts
     ∧ length (HomePage.featuredPosts blogPosts)
       = Nat.min 3 (length publishedPosts)
     ∧ Forall (λ post, Post.published post = true ∧ post ∈ blogPosts)
         (HomePage.featuredPosts blogPosts))
  ∧ (∃ featured,
       Selects (λ project, Proj.featured project = true) projects featured
       ∧ HomePage.featuredProjects projects = take 3 featured
       ∧ length (HomePage.featuredProjects projects)
         = Nat.min 3 (length featured)
       ∧ Forall (λ project, Proj.featured project = true ∧ project ∈ projects)
           (HomePage.featuredProjects projects)).
Proof.
  split.
  - by apply (filter_slice_first_three (λ post, Post.published post = true)).
  - by apply (filter_slice_first_three (λ project, Proj.featured project = true)).
Qed.

(** On the shipped data both home page sections are full. *)
Example featured_shipped :
  Post.id <$> HomePage.featuredPosts MockData.blogPosts
  = ["understanding-database-indexes"; "low-latency-communication";
     "microservices-patterns"]
  ∧ Proj.id <$> HomePage.featuredProjects MockData.projects
    = ["distributed-cache"; "realtime-analytics"; "database-profiler"].
Proof. by vm_compute. Qed.

(** ** The header *)

Lemma isActive_spec pathname path :
  Header.isActive pathname path = true ↔ pathname = path.
Proof. apply String.eqb_eq. Qed.

(** C8. A navigation entry is marked active exactly when its path equals
    the current path; nothing is matched by prefix, so on [/blog/<slug>],
    for every slug, no entry is marked, the [/blog] entry included. *)
Theorem isActive_exact :
  (∀ pathname path, Header.isActive pathname path = true ↔ pathname = path)
  ∧ (∀ pathname link,
       link ∈ Header.activeLinks pathname
       ↔ link ∈ Header.navLinks ∧ Header.path link = pathname)
  ∧ (∀ slug, Header.activeLinks (articlePath slug) = []
             ∧ Forall (λ entry, entry.2 = false) (Header.render (articlePath slug))).
Proof.
  split_and!.
  - apply isActive_spec.
  - intros pathname link. unfold Header.activeLinks, Header.render.
    rewrite list_elem_of_fmap. split.
    + intros ([l b] & -> & [Hb Hin%list_elem_of_fmap]%list_elem_of_filter).
      destruct Hin as (l' & [= -> ->] & Hin). simpl in *.
      split; [done|]. symmetry. by apply isActive_spec.
    + intros [Hin <-]. exists (link, true). split; [done|].
      apply list_elem_of_filter. split; [done|].
      apply list_elem_of_fmap. exists link. split; [|done].
      f_equal. symmetry. by apply isActive_spec.
  - intros slug. split.
    + reflexivity.
    + unfold Header.render. simpl. repeat constructor.
Qed.

(** On [/blog] the Blog entry is the one marked; on an article none is. *)
Example activeLinks_blog :
  Header.label <$> Header.activeLinks "/blog" = ["Blog"]
  ∧ Header.activeLinks (articlePath "postgres-query-optimization") = [].
Proof. by vm_compute. Qed.

(** ** The article detail view *)

Section LoaderFacts.
Import Promise BlogPostPage.

(** A fulfilled response hands its body to the state whatever its
    status: the chain never reads [ok] or [status]. *)
Lemma loadChain_fulfilled ok status body st :
  loadChain (Fulfilled {| Fetch.ok := ok; Fetch.status := status;
                          Fetch.text := Fulfilled body |}) st
  = (Fulfilled (),
     {| markdownContent := body; loading := false; console := console st |}).
Proof. done. Qed.

(** A rejected [fetch] ends in the fallback document. *)
Lemma loadChain_rejected reason st :
  loadChain (Rejected reason) st
  = (Fulfilled (),
     {| markdownContent := fallback; loading := false;
        console := console st ++ [("Error loading markdown:", reason)] |}).
Proof. done. Qed.

(** So does a response whose body cannot be read. *)
Lemma loadChain_text_rejected ok status reason st :
  loadChain (Fulfilled {| Fetch.ok := ok; Fetch.status := status;
                          Fetch.text := Rejected reason |}) st
  = (Fulfilled (),
     {| markdownContent := fallback; loading := false;
        console := console st ++ [("Error loading markdown:", reason)] |}).
Proof. done. Qed.

(** The chain handles every rejection itself and always ends the
    loading phase. *)
Lemma loadChain_settles fetched st :
  (loadChain fetched st).1 = Fulfilled ()
  ∧ loading (loadChain fetched st).2 = false.
Proof. by destruct fetched as [[ok status [body|reason]]|reason]. Qed.
End LoaderFacts.

Section ComponentFacts.
Import Promise BlogPostPage.
Variable blogPosts : list BlogPostMeta.

Lemma post_Some slug p :
  post blogPosts slug = Some p → Post.id p = slug ∧ p ∈ blogPosts.
Proof.
  intros [Hid Hin]%find_Some_first. split; [|done].
  by apply String.eqb_eq in Hid.
Qed.

Lemma post_None slug :
  post blogPosts slug = None ↔ ¬ ∃ p, p ∈ blogPosts ∧ Post.id p = slug.
Proof.
  unfold post. rewrite find_None. split.
  - intros H (p & Hin & Hid). apply H in Hin.
    apply String.eqb_neq in Hin. done.
  - intros H p Hin. apply String.eqb_neq. intros Hid. apply H. by exists p.
Qed.

(** With unique ids every post is found under its own id. *)
Lemma post_own_id p :
  p ∈ blogPosts → NoDup (Post.id <$> blogPosts) →
  post blogPosts (Post.id p) = Some p.
Proof.
  unfold post. induction blogPosts as [|x l IH]; [by intros ?%elem_of_nil|].
  intros Hin [Hx Hnd]%NoDup_cons. simpl. unfold JsString.strictEq.
  destruct (String.eqb_spec (Post.id x) (Post.id p)) as [Heq|Hne].
  - apply elem_of_cons in Hin as [->|Hin]; [done|].
    destruct Hx. rewrite Heq. by apply list_elem_of_fmap_2.
  - apply elem_of_cons in Hin as [->|Hin]; [done|]. by apply IH.
Qed.

(** Equal results of the lookup come from equal slugs, hence from the
    same run of [find] and the same object of the dataset. *)
Lemma post_same_record slug1 slug2 p :
  post blogPosts slug1 = Some p → post blogPosts slug2 = Some p → slug1 = slug2.
Proof. intros [<- _]%post_Some [<- _]%post_Some. done. Qed.

Lemma effect_slug p i : slug (effect p i) = slug i.
Proof. by destruct p. Qed.

Lemma effect_state p i : state (effect p i) = state i.
Proof. by destruct p. Qed.

Lemma effect_deps p i : deps (effect p i) = deps i.
Proof. by destruct p. Qed.

Lemma commit_slug i : slug (commit blogPosts i) = slug i.
Proof. unfold commit. case_decide; [done|]. by rewrite effect_slug. Qed.

Lemma commit_state i : state (commit blogPosts i) = state i.
Proof. unfold commit. case_decide; [done|]. by rewrite effect_state. Qed.

(** After a commit the recorded dependency is the post of the slug. *)
Lemma commit_deps i :
  deps (commit blogPosts i) = Some (post blogPosts (slug i)).
Proof. unfold commit. case_decide; [done|]. by rewrite effect_deps. Qed.

(** A re-render with an unchanged dependency runs no effect. *)
Lemma commit_idle i :
  deps i = Some (post blogPosts (slug i)) → commit blogPosts i = i.
Proof. intros H. unfold commit. by rewrite decide_True. Qed.

Lemma mount_unfold slug0 :
  mount blogPosts slug0
  = effect (post blogPosts slug0)
      {| slug := slug0;
         state := {| markdownContent := ""; loading := true; console := [] |};
         deps := Some (post blogPosts slug0);
         inflight := []; requests := [] |}.
Proof. done. Qed.

(** A change of slug leaves both state cells as they are. *)
Lemma step_Navigate_state i slug' :
  state (step blogPosts i (Navigate slug')) = state i.
Proof. simpl. by rewrite commit_state. Qed.

(** A settling request writes the state whichever document it asked for. *)
Lemma step_Settle_state i k url outcome :
  inflight i !! k = Some url →
  state (step blogPosts i (Settle k outcome)) = (loadChain outcome (state i)).2.
Proof. intros H. simpl. rewrite H. by rewrite commit_state. Qed.

Lemma step_Settle_slug i k outcome :
  slug (step blogPosts i (Settle k outcome)) = slug i.
Proof. simpl. destruct (inflight i !! k); [|done]. by rewrite commit_slug. Qed.

(** Settling a request never starts another one. *)
Lemma step_Settle_requests i k outcome :
  deps i = Some (post blogPosts (slug i)) →
  requests (step blogPosts i (Settle k outcome)) = requests i
  ∧ deps (step blogPosts i (Settle k outcome))
    = Some (post blogPosts (slug (step blogPosts i (Settle k outcome)))).
Proof.
  intros Hdeps. simpl. destruct (inflight i !! k); [|done].
  by rewrite commit_idle.
Qed.

Lemma run_settles i (settles : list (nat * Settled Fetch.Response)) :
  deps i = Some (post blogPosts (slug i)) →
  slug (run blogPosts i ((λ s, Settle s.1 s.2) <$> settles)) = slug i
  ∧ requests (run blogPosts i ((λ s, Settle s.1 s.2) <$> settles))
    = requests i.
Proof.
  revert i. induction settles as [|[k o] settles IH]; intros i Hdeps; [done|].
  change (run blogPosts i ((λ s, Settle s.1 s.2) <$> (k, o) :: settles))
    with (run blogPosts (step blogPosts i (Settle k o))
            ((λ s, Settle s.1 s.2) <$> settles)).
  destruct (step_Settle_requests i k o Hdeps) as [Hreq Hdeps'].
  destruct (IH _ Hdeps') as [-> ->]. split.
  - apply step_Settle_slug.
  - done.
Qed.
End ComponentFacts.

Section RenderFacts.
Import Promise BlogPostPage.
Variable blogPosts : list BlogPostMeta.

(** What is rendered depends on the slug and the two state cells only. *)
Lemma render_commit i :
  render blogPosts (commit blogPosts i) = render blogPosts i.
Proof. unfold render. by rewrite commit_slug, commit_state. Qed.

Lemma mount_slug slug0 : slug (mount blogPosts slug0) = slug0.
Proof. rewrite mount_unfold. by rewrite effect_slug. Qed.

Lemma mount_deps slug0 :
  deps (mount blogPosts slug0)
  = Some (post blogPosts (slug (mount blogPosts slug0))).
Proof. rewrite mount_slug, mount_unfold. by rewrite effect_deps. Qed.

Lemma mount_requests slug0 :
  requests (mount blogPosts slug0)
  = match post blogPosts slug0 with
    | Some p => ["/blogs/" +:+ Post.markdownFile p]
    | None => []
    end.
Proof. rewrite mount_unfold. by destruct (post blogPosts slug0). Qed.

Lemma mount_inflight slug0 :
  inflight (mount blogPosts slug0) = requests (mount blogPosts slug0).
Proof. rewrite mount_unfold. by destruct (post blogPosts slug0). Qed.

Lemma mount_state slug0 :
  state (mount blogPosts slug0)
  = {| markdownContent := ""; loading := true; console := [] |}.
Proof. rewrite mount_unfold. by rewrite effect_state. Qed.
End RenderFacts.

(** C3. The article view fetches exactly when the slug equals the id of a
    post of the dataset. For such a slug it issues one request, to
    [/blogs/<markdownFile>] of the post found, however the requests in
    flight settle afterwards, and a fulfilled response has its text handed
    unchanged to the markdown renderer. For any other slug it issues no
    request and renders the not-found state, and stays there. *)
Theorem fetch_iff_slug_resolves (blogPosts : list BlogPostMeta) (slug : string)
    (settles : list (nat * Promise.Settled Fetch.Response)) :
  let mounted := BlogPostPage.mount blogPosts slug in
  let later :=
    BlogPostPage.run blogPosts mounted
      ((λ s, BlogPostPage.Settle s.1 s.2) <$> settles) in
  (BlogPostPage.requests mounted ≠ [] ↔ ∃ p, p ∈ blogPosts ∧ Post.id p = slug)
  ∧ BlogPostPage.requests later = BlogPostPage.requests mounted
  ∧ match BlogPostPage.post blogPosts slug with
    | Some p =>
        Post.id p = slug ∧ p ∈ blogPosts
        ∧ BlogPostPage.requests mounted = ["/blogs/" +:+ Post.markdownFile p]
        ∧ ∀ ok status text,
            BlogPostPage.render blogPosts
              (BlogPostPage.step blogPosts mounted
                 (BlogPostPage.Settle 0
                    (Promise.Fulfilled
                       {| Fetch.ok := ok; Fetch.status := status;
                          Fetch.text := Promise.Fulfilled text |})))
            = BlogPostPage.Article p (BlogPostPage.Markdown text)
                (BlogPostPage.relatedPosts blogPosts slug)
    | None =>
        BlogPostPage.requests later = []
        ∧ BlogPostPage.render blogPosts later = BlogPostPage.NotFound
    end.
Proof.
  intros mounted later.
  destruct (run_settles blogPosts mounted settles (mount_deps blogPosts slug))
    as [Hslug Hreq].
  fold later in Hslug, Hreq. subst mounted.
  rewrite mount_slug in Hslug. rewrite mount_requests in *.
  destruct (BlogPostPage.post blogPosts slug) as [p|] eqn:Hpost.
  - destruct (post_Some _ _ _ Hpost) as [Hid Hin]. split_and!; try done.
    + split; [intros _; by exists p | done].
    + intros ok status text. simpl.
      rewrite mount_inflight, mount_requests, Hpost. simpl.
      rewrite render_commit. unfold BlogPostPage.render. simpl.
      by rewrite mount_slug, Hpost.
  - pose proof Hpost as Hnone. rewrite post_None in Hnone. split_and!; try done.
    unfold BlogPostPage.render. by rewrite Hslug, Hpost.
Qed.

(** The shipped article named in the spec: one request to its document. *)
Example fetch_postgres :
  BlogPostPage.requests
    (BlogPostPage.mount MockData.blogPosts "postgres-query-optimization")
  = ["/blogs/postgres-query-optimization.md"]
  ∧ BlogPostPage.requests
      (BlogPostPage.mount MockData.blogPosts "does-not-exist") = []
  ∧ BlogPostPage.render MockData.blogPosts
      (BlogPostPage.mount MockData.blogPosts "does-not-exist")
    = BlogPostPage.NotFound.
Proof. by vm_compute. Qed.

(** C2. What the loader does with a response of status 404: the request
    for a shipped article is answered "not found", the chain does not look
    at the status, and the text of the error page is shown as the article
    in place of the fallback document. *)
Theorem http_error_body_shown_as_article :
  let response :=
    {| Fetch.ok := false; Fetch.status := 404;
       Fetch.text := Promise.Fulfilled "Cannot GET /blogs/postgres-query-optimization.md" |} in
  let i :=
    BlogPostPage.step MockData.blogPosts
      (BlogPostPage.mount MockData.blogPosts "postgres-query-optimization")
      (BlogPostPage.Settle 0 (Promise.Fulfilled response)) in
  BlogPostPage.requests i = ["/blogs/postgres-query-optimization.md"]
  ∧ BlogPostPage.state i
    = {| BlogPostPage.markdownContent :=
           "Cannot GET /blogs/postgres-query-optimization.md";
         BlogPostPage.loading := false;
         BlogPostPage.console := [] |}
  ∧ BlogPostPage.markdownContent (BlogPostPage.state i) ≠ BlogPostPage.fallback
  ∧ ∃ p more,
      BlogPostPage.render MockData.blogPosts i
      = BlogPostPage.Article p
          (BlogPostPage.Markdown "Cannot GET /blogs/postgres-query-optimization.md")
          more.
Proof.
  split_and!; [by vm_compute | by vm_compute | by vm_compute |].
  do 2 eexists. by vm_compute.
Qed.

(** The part of C2 the loader does implement: a rejected request, or a
    body that cannot be read, leaves the fallback document in the state,
    ends the loading phase, and is not passed on as a rejection; the view
    shows the fallback and nothing of the reason. *)
Lemma rejected_fetch_shows_fallback (blogPosts : list BlogPostMeta) (slug reason : string) :
  let i :=
    BlogPostPage.step blogPosts (BlogPostPage.mount blogPosts slug)
      (BlogPostPage.Settle 0 (Promise.Rejected reason)) in
  match BlogPostPage.post blogPosts slug with
  | Some p =>
      BlogPostPage.render blogPosts i
      = BlogPostPage.Article p (BlogPostPage.Markdown BlogPostPage.fallback)
          (BlogPostPage.relatedPosts blogPosts slug)
  | None => BlogPostPage.render blogPosts i = BlogPostPage.NotFound
  end.
Proof.
  intros i. subst i. simpl.
  rewrite mount_inflight, mount_requests.
  destruct (BlogPostPage.post blogPosts slug) as [p|] eqn:Hpost; simpl.
  - rewrite render_commit. unfold BlogPostPage.render. simpl.
    by rewrite mount_slug, Hpost.
  - unfold BlogPostPage.render. by rewrite mount_slug, Hpost.
Qed.

(** C4. What happens when the slug changes while the view is mounted. The
    first article has loaded; the reader follows a link to the second. The
    request for the second document is in flight, the loading flag is
    still off, and the view shows the second article's header over the
    first article's text. And when the reader moves on before the first
    response arrives and that response arrives last, its text stays under
    the second article's header for good. *)
Theorem stale_text_after_slug_change :
  let served (body : string) :=
    Promise.Fulfilled {| Fetch.ok := true; Fetch.status := 200;
                         Fetch.text := Promise.Fulfilled body |} in
  let first := "understanding-database-indexes" in
  let second := "low-latency-communication" in
  let loaded :=
    BlogPostPage.step MockData.blogPosts
      (BlogPostPage.mount MockData.blogPosts first)
      (BlogPostPage.Settle 0 (served "# Indexes")) in
  let moved :=
    BlogPostPage.step MockData.blogPosts loaded (BlogPostPage.Navigate second) in
  let overtaken :=
    BlogPostPage.run MockData.blogPosts
      (BlogPostPage.mount MockData.blogPosts first)
      [BlogPostPage.Navigate second;
       BlogPostPage.Settle 1 (served "# Latency");
       BlogPostPage.Settle 0 (served "# Indexes")] in
  (BlogPostPage.inflight moved = ["/blogs/low-latency-communication.md"]
   ∧ BlogPostPage.loading (BlogPostPage.state moved) = false
   ∧ ∃ p more,
       BlogPostPage.render MockData.blogPosts moved
       = BlogPostPage.Article p (BlogPostPage.Markdown "# Indexes") more
       ∧ Post.id p = second)
  ∧ (BlogPostPage.inflight overtaken = []
     ∧ ∃ p more,
         BlogPostPage.render MockData.blogPosts overtaken
         = BlogPostPage.Article p (BlogPostPage.Markdown "# Indexes") more
         ∧ Post.id p = second).
Proof.
  split.
  - split_and!; [by vm_compute | by vm_compute |].
    do 2 eexists. split; by vm_compute.
  - split; [by vm_compute|].
    do 2 eexists. split; by vm_compute.
Qed.

(** ** Drafts *)

(** The vocabulary of the fixture carries the tag only the draft has. *)
Example allTags_with_draft :
  BlogPage.allTags Fixture.blogPosts
  = ["Database"; "Performance"; "Data Structures"; "Storage"; "System Design";
     "Networking"; "Microservices"; "Backend"; "Architecture"; "PostgreSQL";
     "Optimization"].
Proof. by vm_compute. Qed.

Section DraftFacts.
Variable engine : JsString.Engine.
Variable blogPosts : list BlogPostMeta.

Lemma unpublished_not_listed p q t :
  Post.published p = false → p ∉ BlogPage.filteredPosts engine blogPosts q t.
Proof.
  intros Hp Hin.
  apply (Selects_elem_of _ _ _ _ (filteredPosts_Selects engine blogPosts q t)) in Hin
    as (_ & Hpub & _).
  congruence.
Qed.

Lemma unpublished_not_related p slug :
  Post.published p = false → p ∉ BlogPostPage.relatedPosts blogPosts slug.
Proof.
  intros Hp Hin.
  destruct (relatedPosts_callback_spec slug p) as [_ Hcb].
  unfold BlogPostPage.relatedPosts in Hin. rewrite slice_from_0 in Hin.
  apply subseteq_take in Hin.
  apply (Selects_elem_of (Spec.relatedTo slug)) with (l := blogPosts) in Hin
    as (_ & _ & Hpub); [congruence|].
  apply filter_Selects. intros x. apply relatedPosts_callback_spec.
Qed.

Lemma unpublished_not_featured p :
  Post.published p = false → p ∉ HomePage.featuredPosts blogPosts.
Proof.
  intros Hp Hin.
  unfold HomePage.featuredPosts in Hin. rewrite slice_from_0 in Hin.
  apply subseteq_take in Hin.
  apply (Selects_elem_of (λ x, Post.published x = true)) with (l := blogPosts)
    in Hin as (_ & Hpub); [congruence|].
  by apply filter_Selects.
Qed.
End DraftFacts.

(** C7. Resolving the slug of the article view does not look at the
    published flag. In a dataset with unique ids, the id of any post,
    published or not, resolves to that post and the article view is
    rendered rather than the not-found state; an unpublished post is
    nevertheless absent from the blog list for every query and tag, from
    every "More Articles" list and from "Latest Articles". *)
Theorem draft_reachable_by_slug (blogPosts : list BlogPostMeta) (p : BlogPostMeta) :
  p ∈ blogPosts →
  NoDup (Post.id <$> blogPosts) →
  BlogPostPage.post blogPosts (Post.id p) = Some p
  ∧ BlogPostPage.render blogPosts (BlogPostPage.mount blogPosts (Post.id p))
    = BlogPostPage.Article p BlogPostPage.LoadingIndicator
        (BlogPostPage.relatedPosts blogPosts (Post.id p))
  ∧ (Post.published p = false →
     (∀ engine q t, p ∉ BlogPage.filteredPosts engine blogPosts q t)
     ∧ (∀ slug, p ∉ BlogPostPage.relatedPosts blogPosts slug)
     ∧ p ∉ HomePage.featuredPosts blogPosts).
Proof.
  intros Hin Hnd. pose proof (post_own_id blogPosts p Hin Hnd) as Hpost.
  split_and!.
  - done.
  - unfold BlogPostPage.render. by rewrite mount_slug, Hpost, mount_state.
  - intros Hp. split_and!.
    + intros engine q t. by apply unpublished_not_listed.
    + intros slug. by apply unpublished_not_related.
    + by apply unpublished_not_featured.
Qed.

Lemma draft_reachable_by_slug_witness :
  Fixture.draft ∈ Fixture.blogPosts
  ∧ NoDup (Post.id <$> Fixture.blogPosts)
  ∧ BlogPostPage.post Fixture.blogPosts "wal-notes" = Some Fixture.draft
  ∧ BlogPostPage.render Fixture.blogPosts
      (BlogPostPage.mount Fixture.blogPosts "wal-notes")
    = BlogPostPage.Article Fixture.draft BlogPostPage.LoadingIndicator
        (BlogPostPage.relatedPosts Fixture.blogPosts "wal-notes")
  ∧ (Post.published Fixture.draft = false →
     (∀ engine q t, Fixture.draft ∉ BlogPage.filteredPosts engine Fixture.blogPosts q t)
     ∧ (∀ slug, Fixture.draft ∉ BlogPostPage.relatedPosts Fixture.blogPosts slug)
     ∧ Fixture.draft ∉ HomePage.featuredPosts Fixture.blogPosts).
Proof.
  assert (Fixture.draft ∈ Fixture.blogPosts) as Hin
    by (apply (bool_decide_unpack _); vm_compute; exact I).
  assert (NoDup (Post.id <$> Fixture.blogPosts)) as Hnd
    by (apply (bool_decide_unpack _); vm_compute; exact I).
  split; [exact Hin|]. split; [exact Hnd|].
  exact (draft_reachable_by_slug Fixture.blogPosts Fixture.draft Hin Hnd).
Defined.

(** * Further properties of the views *)

(** ** Filtering *)

Section FilterFacts.
Context {A : Type}.
Implicit Types (f g : A → bool) (l : list A).

Lemma filter_ext f g l :
  (∀ x, x ∈ l → f x = g x) → JsArray.filter f l = JsArray.filter g l.
Proof.
  induction l as [|x l IH]; intros H; [done|].
  rewrite !filter_cons, (H x) by (by left).
  rewrite IH; [done|]. intros y Hy. apply H. by right.
Qed.

Lemma filter_filter f g l :
  JsArray.filter f (JsArray.filter g l)
  = JsArray.filter (λ x, g x && f x) l.
Proof.
  induction l as [|x l IH]; [done|].
  rewrite !filter_cons. destruct (g x); simpl; [|done].
  rewrite filter_cons. by rewrite IH.
Qed.

Lemma filter_elem_of f l x : x ∈ JsArray.filter f l ↔ x ∈ l ∧ f x = true.
Proof.
  apply (Selects_elem_of (λ y, f y = true)). by apply filter_Selects.
Qed.

Lemma filter_empty f l :
  JsArray.filter f l = [] ↔ ∀ x, x ∈ l → f x = false.
Proof.
  split.
  - intros H x Hx. destruct (f x) eqn:Hfx; [|done].
    assert (x ∈ JsArray.filter f l) as Hin by (by apply filter_elem_of).
    rewrite H in Hin. by apply elem_of_nil in Hin.
  - intros H. rewrite (filter_ext f (λ _, false) l H).
    clear H. induction l as [|x l IH]; [done|]. by rewrite filter_cons.
Qed.

(** A stricter selection from the same list is a sublist of a laxer one. *)
Lemma Selects_mono (P Q : A → Prop) l r r' :
  (∀ x, Q x → P x) → Selects P l r → Selects Q l r' → r' `sublist_of` r.
Proof.
  intros HQP HP. revert r'.
  induction HP as [|x l r Hx _ IH|x l r Hx _ IH]; intros r' HQ;
    inversion HQ; subst.
  - constructor.
  - apply sublist_skip. by apply IH.
  - apply sublist_cons. by apply IH.
  - destruct Hx. by apply HQP.
  - by apply IH.
Qed.

End FilterFacts.

Lemma filteredPosts_elem_of engine blogPosts q t p :
  p ∈ BlogPage.filteredPosts engine blogPosts q t
  ↔ p ∈ blogPosts ∧ Spec.listed engine q t p.
Proof. apply Selects_elem_of, filteredPosts_Selects. Qed.

Lemma matchesSearch_empty engine p : BlogPage.matchesSearch engine "" p = true.
Proof. apply matchesSearch_spec. left. apply containsIgnoringCase_empty. Qed.

(** A text that contains a longer ASCII query contains each part of it. *)
Lemma containsIgnoringCase_part engine text a q b :
  JsString.isAscii a = true → JsString.isAscii q = true →
  JsString.isAscii b = true →
  Spec.containsIgnoringCase engine text (a +:+ q +:+ b) →
  Spec.containsIgnoringCase engine text q.
Proof.
  intros Ha Hq Hb (pre & suf & H).
  rewrite (JsString.toLowerCase_ascii engine (a +:+ q +:+ b)) in H
    by (by rewrite !isAscii_append, Ha, Hq, Hb).
  rewrite !asciiLower_append in H.
  exists (pre +:+ JsString.asciiLower a), (JsString.asciiLower b +:+ suf).
  rewrite H, (JsString.toLowerCase_ascii engine q) by done.
  by rewrite !append_assoc.
Qed.

(** X1. A query and a tag together show the posts that the query alone
    and the tag alone both show: the list for both is the list for the
    query filtered by the tag, and the list for the tag filtered by the
    query. *)
Theorem query_and_tag_intersect (engine : JsString.Engine)
    (blogPosts : list BlogPostMeta) (q : string) (t : option string) :
  (∀ p, p ∈ BlogPage.filteredPosts engine blogPosts q t
        ↔ p ∈ BlogPage.filteredPosts engine blogPosts q None
          ∧ p ∈ BlogPage.filteredPosts engine blogPosts "" t)
  ∧ BlogPage.filteredPosts engine blogPosts q t
    = JsArray.filter (BlogPage.matchesTag t)
        (BlogPage.filteredPosts engine blogPosts q None)
  ∧ BlogPage.filteredPosts engine blogPosts q t
    = JsArray.filter (BlogPage.matchesSearch engine q)
        (BlogPage.filteredPosts engine blogPosts "" t).
Proof.
  split_and!.
  - intros p. unfold BlogPage.filteredPosts. rewrite !filter_elem_of.
    rewrite matchesSearch_empty. simpl.
    destruct (BlogPage.matchesSearch engine q p), (BlogPage.matchesTag t p),
      (Post.published p); simpl; naive_solver.
  - unfold BlogPage.filteredPosts. rewrite filter_filter.
    apply filter_ext. intros p _. simpl.
    by destruct (BlogPage.matchesSearch engine q p), (BlogPage.matchesTag t p),
      (Post.published p).
  - unfold BlogPage.filteredPosts. rewrite filter_filter.
    apply filter_ext. intros p _. rewrite matchesSearch_empty.
    by destruct (BlogPage.matchesSearch engine q p), (BlogPage.matchesTag t p),
      (Post.published p).
Qed.

(** X2. For queries in the ASCII range the case of the letters does not
    matter: two such queries that differ only in the case of [A]..[Z] show
    the same list, on every dataset, for every tag and with every
    engine. *)
Theorem query_case_insensitive (engine : JsString.Engine)
    (blogPosts : list BlogPostMeta) (q q' : string) (t : option string) :
  JsString.isAscii q = true →
  JsString.isAscii q' = true →
  JsString.asciiLower q = JsString.asciiLower q' →
  BlogPage.filteredPosts engine blogPosts q t
  = BlogPage.filteredPosts engine blogPosts q' t.
Proof.
  intros Hq Hq' H. apply filter_ext. intros p _. unfold BlogPage.matchesSearch.
  by rewrite (JsString.toLowerCase_ascii engine q),
     (JsString.toLowerCase_ascii engine q'), H.
Qed.

Lemma query_case_insensitive_witness :
  BlogPage.filteredPosts JsString.asciiEngine MockData.blogPosts
    "POSTGRESQL" (Some "Database")
  = BlogPage.filteredPosts JsString.asciiEngine MockData.blogPosts
      "PostgreSQL" (Some "Database").
Proof.
  apply (query_case_insensitive JsString.asciiEngine MockData.blogPosts
           "POSTGRESQL" "PostgreSQL" (Some "Database")); reflexivity.
Defined.

(** X3. Typing more never brings posts back: for queries in the ASCII
    range, the list for a query that extends [q] at either end is a sublist
    of the list for [q], on every dataset and with every engine. *)
Theorem longer_query_narrows (engine : JsString.Engine)
    (blogPosts : list BlogPostMeta) (a q b : string) (t : option string) :
  JsString.isAscii a = true →
  JsString.isAscii q = true →
  JsString.isAscii b = true →
  BlogPage.filteredPosts engine blogPosts (a +:+ q +:+ b) t
  `sublist_of` BlogPage.filteredPosts engine blogPosts q t.
Proof.
  intros Ha Hq Hb.
  eapply Selects_mono; [| apply filteredPosts_Selects | apply filteredPosts_Selects].
  intros p (Hpub & Hqp & Ht). split_and!; [done | | done].
  destruct Hqp as [H|H]; [left | right];
    by eapply (containsIgnoringCase_part engine _ a q b).
Qed.

Lemma longer_query_narrows_witness :
  BlogPage.filteredPosts JsString.asciiEngine MockData.blogPosts
    ("post" +:+ "gres" +:+ "ql") None
  `sublist_of` BlogPage.filteredPosts JsString.asciiEngine MockData.blogPosts
                 "gres" None.
Proof.
  apply (longer_query_narrows JsString.asciiEngine MockData.blogPosts
           "post" "gres" "ql" None); reflexivity.
Defined.

(** X4. On ASCII text searching finds what is there: when the title or
    the excerpt of a published post is in the ASCII range, a query in that
    range that equals a fragment of it up to the case of [A]..[Z] shows
    the post, with every engine. *)
Theorem search_finds_fragment (engine : JsString.Engine)
    (blogPosts : list BlogPostMeta) (p : BlogPostMeta)
    (text a fragment b q : string) :
  p ∈ blogPosts →
  Post.published p = true →
  text = Post.title p ∨ text = Post.excerpt p →
  JsString.isAscii text = true →
  text = a +:+ fragment +:+ b →
  JsString.isAscii q = true →
  JsString.asciiLower q = JsString.asciiLower fragment →
  p ∈ BlogPage.filteredPosts engine blogPosts q None.
Proof.
  intros Hin Hpub Htext Hascii Hfrag Hq Hcase. apply filteredPosts_elem_of.
  split; [done|]. split_and!; [done | | by left].
  assert (Spec.containsIgnoringCase engine text q) as Hc.
  { exists (JsString.asciiLower a), (JsString.asciiLower b).
    rewrite (JsString.toLowerCase_ascii engine text),
      (JsString.toLowerCase_ascii engine q) by done.
    by rewrite Hfrag, !asciiLower_append, Hcase. }
  destruct Htext as [-> | ->]; [by left | by right].
Qed.

Lemma search_finds_fragment_witness :
  let p := {| Post.id := "microservices-patterns";
       Post.title := "Essential Microservices Patterns Every Backend Engineer Should Know";
       Post.excerpt := "Explore critical patterns like Circuit Breaker, Saga, and API Gateway that are essential for building robust microservices architectures.";
       Post.date := "2025-01-05";
       Post.readTime := "10 min read";
       Post.tags := ["Microservices"; "Backend"; "Architecture"];
       Post.markdownFile := "microservices-patterns.md";
       Post.published := true |} in
  p ∈ BlogPage.filteredPosts JsString.asciiEngine MockData.blogPosts
        "circuit BREAKER" None.
Proof.
  intros p.
  apply (search_finds_fragment JsString.asciiEngine MockData.blogPosts p
           (Post.excerpt p)
           "Explore critical patterns like " "Circuit Breaker"
           ", Saga, and API Gateway that are essential for building robust microservices architectures."
           "circuit BREAKER").
  - apply (bool_decide_unpack _). vm_compute. exact I.
  - reflexivity.
  - right. reflexivity.
  - reflexivity.
  - reflexivity.
  - reflexivity.
  - reflexivity.
Defined.

(** X5. A post that is listed stays listed when the reader selects one of
    its own tags: with the same query, every tag on a card leads to a list
    that still has the card. *)
Theorem listed_under_own_tags (engine : JsString.Engine)
    (blogPosts : list BlogPostMeta) (p : BlogPostMeta)
    (q : string) (t : option string) (tag : string) :
  p ∈ BlogPage.filteredPosts engine blogPosts q t →
  tag ∈ Post.tags p →
  p ∈ BlogPage.filteredPosts engine blogPosts q (Some tag).
Proof.
  rewrite !filteredPosts_elem_of. intros (Hin & Hpub & Hq & _) Htag.
  split; [done|]. split_and!; [done | done |].
  right; right. by exists tag.
Qed.

Lemma listed_under_own_tags_witness :
  let p := {| Post.id := "postgres-query-optimization";
       Post.title := "PostgreSQL Query Optimization Techniques";
       Post.excerpt := "Learn how to analyze and optimize PostgreSQL queries using EXPLAIN, proper indexing strategies, and query rewriting techniques.";
       Post.date := "2024-12-28";
       Post.readTime := "15 min read";
       Post.tags := ["PostgreSQL"; "Database"; "Optimization"];
       Post.markdownFile := "postgres-query-optimization.md";
       Post.published := true |} in
  p ∈ BlogPage.filteredPosts JsString.asciiEngine MockData.blogPosts "query" (Some "Optimization").
Proof.
  intros p.
  apply (listed_under_own_tags JsString.asciiEngine MockData.blogPosts p "query" None "Optimization").
  - apply (bool_decide_unpack _). vm_compute. exact I.
  - apply (bool_decide_unpack _). vm_compute. exact I.
Defined.

(** X6. A tag of the vocabulary can lead to an empty list: with no query,
    a non-empty tag shows nothing exactly when every post that carries it
    is unpublished. *)
Theorem tag_of_drafts_shows_nothing (engine : JsString.Engine)
    (blogPosts : list BlogPostMeta) (tag : string) :
  tag ≠ "" →
  BlogPage.filteredPosts engine blogPosts "" (Some tag) = []
  ↔ ∀ p, p ∈ blogPosts → tag ∈ Post.tags p → Post.published p = false.
Proof.
  intros Htag. unfold BlogPage.filteredPosts. rewrite filter_empty.
  assert (∀ p, BlogPage.matchesTag (Some tag) p = true ↔ tag ∈ Post.tags p) as Hmt.
  { intros p. rewrite matchesTag_spec. unfold Spec.tagRule. split.
    - intros [[=]|[[= Heq]|(s & [= <-] & Hs)]]; [by destruct Htag | done].
    - intros Hs. right; right. by exists tag. }
  split.
  - intros H p Hin Hp. specialize (H p Hin). cbv beta in H.
    rewrite matchesSearch_empty in H. apply Hmt in Hp. rewrite Hp in H. done.
  - intros H p Hin. cbv beta. rewrite matchesSearch_empty.
    destruct (BlogPage.matchesTag (Some tag) p) eqn:Hp; [|done].
    apply Hmt in Hp. simpl. by apply H.
Qed.

Lemma tag_of_drafts_shows_nothing_witness :
  "Storage" ∈ BlogPage.allTags Fixture.blogPosts
  ∧ BlogPage.filteredPosts JsString.asciiEngine Fixture.blogPosts "" (Some "Storage") = []
  ∧ ∀ p, p ∈ Fixture.blogPosts → "Storage" ∈ Post.tags p → Post.published p = false.
Proof.
  assert ("Storage" ≠ "") as Hne by discriminate.
  pose proof (tag_of_drafts_shows_nothing JsString.asciiEngine Fixture.blogPosts
                "Storage" Hne) as [H _].
  split; [apply (bool_decide_unpack _); vm_compute; exact I|].
  split; [reflexivity|]. apply H. reflexivity.
Defined.

(** X7. The list region shows the "no results" message exactly when no
    post of the dataset qualifies; otherwise it shows one card per listed
    post, in the order of the list, each linking to [/blog/<id>] of its
    post. *)
Theorem blogList_cards_or_message (engine : JsString.Engine)
    (blogPosts : list BlogPostMeta) (st : BlogPage.State) :
  let q := BlogPage.searchQuery st in
  let t := BlogPage.selectedTag st in
  match BlogPage.blogList engine blogPosts st with
  | BlogPage.NoResults =>
      ∀ p, p ∈ blogPosts → ¬ Spec.listed engine q t p
  | BlogPage.Cards cards =>
      (∃ p, p ∈ blogPosts ∧ Spec.listed engine q t p)
      ∧ BlogPage.cardPost <$> cards = BlogPage.filteredPosts engine blogPosts q t
      ∧ Forall (λ card, BlogPage.to card = articlePath (Post.id (BlogPage.cardPost card)))
          cards
  end.
Proof.
  intros q t. unfold BlogPage.blogList. fold q t.
  destruct (BlogPage.filteredPosts engine blogPosts q t) as [|p l] eqn:Hf; simpl.
  - intros p Hin Hp.
    assert (p ∈ BlogPage.filteredPosts engine blogPosts q t) as H
      by (by apply filteredPosts_elem_of).
    rewrite Hf in H. by apply elem_of_nil in H.
  - split_and!.
    + exists p. apply filteredPosts_elem_of. rewrite Hf. by left.
    + f_equal. rewrite <- list_fmap_compose. by rewrite list_fmap_id.
    + constructor; [done|]. apply Forall_fmap, Forall_forall. done.
Qed.

(** ** The filter badges *)

Lemma allTags_NoDup blogPosts : NoDup (BlogPage.allTags blogPosts).
Proof.
  unfold BlogPage.allTags, JsSet.spread, JsSet.new.
  by destruct (Set_new_loop (JsArray.flatMap Post.tags blogPosts) [] (NoDup_nil_2)).
Qed.

Lemma Nullable_strictEq_spec (v : option string) (s : string) :
  JsNullable.strictEq v s = true ↔ v = Some s.
Proof.
  destruct v as [s'|]; simpl; [|done].
  unfold JsString.strictEq. rewrite String.eqb_eq. split; congruence.
Qed.

Section BadgeFacts.
Variable blogPosts : list BlogPostMeta.

Lemma reachable_selectedTag st :
  BlogPage.Reachable blogPosts st →
  BlogPage.selectedTag st = None
  ∨ ∃ tag, BlogPage.selectedTag st = Some tag ∧ tag ∈ BlogPage.allTags blogPosts.
Proof.
  induction 1 as [|st value _ IH|st badge _ IH Hbadge].
  - by left.
  - done.
  - apply elem_of_cons in Hbadge as [->|Hbadge]; [by left|].
    apply list_elem_of_fmap in Hbadge as (tag & -> & Htag).
    cbn [BlogPage.onClick BlogPage.step].
    rewrite onClickTag_selectedTag. case_decide; [by left|].
    right. by exists tag.
Qed.

(** Among the tag badges the highlighted ones are those of the selected
    tag. *)
Lemma tag_badges_highlighted (sel : option string) (l : list string) :
  filter (λ badge, BlogPage.variant badge = BlogPage.Default)
    (map (λ tag,
       {| BlogPage.label := tag;
          BlogPage.variant := if JsNullable.strictEq sel tag
                              then BlogPage.Default else BlogPage.Outline;
          BlogPage.onClick := BlogPage.ClickTag tag |}) l)
  = map (λ tag,
       {| BlogPage.label := tag;
          BlogPage.variant := if JsNullable.strictEq sel tag
                              then BlogPage.Default else BlogPage.Outline;
          BlogPage.onClick := BlogPage.ClickTag tag |})
      (filter (λ tag, sel = Some tag) l).
Proof.
  induction l as [|tag l IH]; [done|]. simpl.
  destruct (JsNullable.strictEq sel tag) eqn:Heq.
  - pose proof (proj1 (Nullable_strictEq_spec sel tag) Heq) as Hsel.
    rewrite !list.filter_cons_True by done. simpl.
    rewrite Heq. f_equal. exact IH.
  - assert (sel ≠ Some tag) as Hne.
    { intros H%Nullable_strictEq_spec. congruence. }
    by rewrite !list.filter_cons_False by done.
Qed.

Lemma filter_selected_NoDup (sel : option string) (t : string) (l : list string) :
  sel = Some t → NoDup l → t ∈ l → filter (λ tag, sel = Some tag) l = [t].
Proof.
  intros Hsel. induction l as [|x l IH]; [by intros _ ?%elem_of_nil|].
  intros [Hx Hnd]%NoDup_cons Hin.
  destruct (decide (t = x)) as [->|Hne].
  - rewrite list.filter_cons_True by done. f_equal.
    destruct (filter (λ tag, sel = Some tag) l) as [|y l'] eqn:Hf; [done|].
    assert (y ∈ filter (λ tag, sel = Some tag) l) as Hy
      by (rewrite Hf; by left).
    apply list_elem_of_filter in Hy as [Hy' Hy].
    rewrite Hsel in Hy'. injection Hy' as <-. done.
  - rewrite list.filter_cons_False by congruence.
    apply elem_of_cons in Hin as [?|Hin]; [done|]. by apply IH.
Qed.

Lemma filter_selected_None (sel : option string) (l : list string) :
  sel = None → filter (λ tag, sel = Some tag) l = [].
Proof.
  intros Hsel. induction l as [|x l IH]; [done|].
  rewrite list.filter_cons_False by congruence. done.
Qed.
End BadgeFacts.

(** X8. In every state the reader can reach, on a dataset without an
    empty tag and with every engine, the selection is [null] or a tag of
    the vocabulary, and the list shows exactly the published posts whose
    lowered title or excerpt contains the lowered query and that, when a
    tag is selected, carry that tag. *)
Theorem reachable_filter_exact (engine : JsString.Engine)
    (blogPosts : list BlogPostMeta) (st : BlogPage.State) :
  BlogPage.Reachable blogPosts st →
  "" ∉ BlogPage.allTags blogPosts →
  (BlogPage.selectedTag st = None
   ∨ ∃ tag, BlogPage.selectedTag st = Some tag ∧ tag ∈ BlogPage.allTags blogPosts)
  ∧ Selects (Spec.listedStated engine (BlogPage.searchQuery st) (BlogPage.selectedTag st))
      blogPosts
      (BlogPage.filteredPosts engine blogPosts (BlogPage.searchQuery st)
         (BlogPage.selectedTag st)).
Proof.
  intros Hreach Hempty.
  pose proof (reachable_selectedTag blogPosts st Hreach) as Hsel.
  split; [done|].
  eapply Selects_ext; [|apply filteredPosts_Selects].
  intros p _. unfold Spec.listed, Spec.listedStated.
  rewrite tagRule_stated; [done|]. by eapply selectable_tag_not_empty.
Qed.

Lemma reachable_filter_exact_witness :
  let st := BlogPage.run BlogPage.initial
              [BlogPage.Change "index"; BlogPage.ClickTag "Database"] in
  (BlogPage.selectedTag st = None
   ∨ ∃ tag, BlogPage.selectedTag st = Some tag
            ∧ tag ∈ BlogPage.allTags MockData.blogPosts)
  ∧ Selects (Spec.listedStated JsString.asciiEngine (BlogPage.searchQuery st)
               (BlogPage.selectedTag st))
      MockData.blogPosts
      (BlogPage.filteredPosts JsString.asciiEngine MockData.blogPosts (BlogPage.searchQuery st)
         (BlogPage.selectedTag st)).
Proof.
  intros st.
  apply (reachable_filter_exact JsString.asciiEngine MockData.blogPosts st).
  - apply (BlogPage.Reachable_click MockData.blogPosts
             (BlogPage.step BlogPage.initial (BlogPage.Change "index"))
             {| BlogPage.label := "Database"; BlogPage.variant := BlogPage.Outline;
                BlogPage.onClick := BlogPage.ClickTag "Database" |}).
    + apply BlogPage.Reachable_change, BlogPage.Reachable_initial.
    + vm_compute. apply list_elem_of_further, list_elem_of_here.
  - apply (bool_decide_unpack _). vm_compute. exact I.
Defined.

(** X9. In every state the reader can reach, on a dataset without an
    empty tag, exactly one filter badge is highlighted: "All Topics" when
    no tag is selected, else the badge of the selected tag. *)
Theorem one_badge_highlighted (blogPosts : list BlogPostMeta) (st : BlogPage.State) :
  BlogPage.Reachable blogPosts st →
  "" ∉ BlogPage.allTags blogPosts →
  ∃ badge,
    filter (λ b, BlogPage.variant b = BlogPage.Default)
      (BlogPage.tagFilters blogPosts st) = [badge]
    ∧ BlogPage.label badge
      = match BlogPage.selectedTag st with
        | None => "All Topics"
        | Some tag => tag
        end.
Proof.
  intros Hreach Hempty. unfold BlogPage.tagFilters.
  rewrite list.filter_cons, tag_badges_highlighted. cbn [BlogPage.variant].
  destruct (reachable_selectedTag blogPosts st Hreach) as [Hsel|(tag & Hsel & Htag)].
  - rewrite filter_selected_None by done. rewrite Hsel. simpl.
    eexists. split; [reflexivity | done].
  - assert (tag ≠ "") as Hne by (by intros ->).
    rewrite (filter_selected_NoDup _ tag) by (done || apply allTags_NoDup).
    rewrite Hsel. destruct tag as [|c tag]; [done|]. simpl.
    eexists. split; [reflexivity | done].
Qed.

Lemma one_badge_highlighted_witness :
  let st := BlogPage.run BlogPage.initial
              [BlogPage.Change "index"; BlogPage.ClickTag "Database"] in
  ∃ badge,
    filter (λ b, BlogPage.variant b = BlogPage.Default)
      (BlogPage.tagFilters MockData.blogPosts st) = [badge]
    ∧ BlogPage.label badge
      = match BlogPage.selectedTag st with
        | None => "All Topics"
        | Some tag => tag
        end.
Proof.
  intros st. apply (one_badge_highlighted MockData.blogPosts st).
  - apply (BlogPage.Reachable_click MockData.blogPosts
             (BlogPage.step BlogPage.initial (BlogPage.Change "index"))
             {| BlogPage.label := "Database"; BlogPage.variant := BlogPage.Outline;
                BlogPage.onClick := BlogPage.ClickTag "Database" |}).
    + apply BlogPage.Reachable_change, BlogPage.Reachable_initial.
    + vm_compute. apply list_elem_of_further, list_elem_of_here.
  - apply (bool_decide_unpack _). vm_compute. exact I.
Defined.

(** ** Links to articles *)

(** X10. No list offers a dead link. In a dataset with unique ids, every
    post on the blog list, under "Latest Articles" or under "More
    Articles" is published and is the post its id resolves to, so the
    article view opened for it shows that post and not the not-found
    state. *)
Theorem offered_links_resolve (engine : JsString.Engine)
    (blogPosts : list BlogPostMeta) (p : BlogPostMeta)
    (q : string) (t : option string) (slug : string) :
  NoDup (Post.id <$> blogPosts) →
  p ∈ BlogPage.filteredPosts engine blogPosts q t
      ++ HomePage.featuredPosts blogPosts
      ++ BlogPostPage.relatedPosts blogPosts slug →
  Post.published p = true
  ∧ BlogPostPage.post blogPosts (Post.id p) = Some p
  ∧ BlogPostPage.render blogPosts (BlogPostPage.mount blogPosts (Post.id p))
    = BlogPostPage.Article p BlogPostPage.LoadingIndicator
        (BlogPostPage.relatedPosts blogPosts (Post.id p)).
Proof.
  intros Hnd Hin.
  assert (p ∈ blogPosts ∧ Post.published p = true) as [Hp Hpub].
  { rewrite !elem_of_app in Hin. destruct Hin as [Hin|[Hin|Hin]].
    - apply filteredPosts_elem_of in Hin as (? & ? & _). done.
    - unfold HomePage.featuredPosts in Hin. rewrite slice_from_0 in Hin.
      apply subseteq_take, filter_elem_of in Hin. done.
    - unfold BlogPostPage.relatedPosts in Hin. rewrite slice_from_0 in Hin.
      apply subseteq_take, filter_elem_of in Hin as [? [_ ?]%andb_true_iff].
      done. }
  pose proof (post_own_id blogPosts p Hp Hnd) as Hpost.
  split_and!; [done | done |].
  unfold BlogPostPage.render. by rewrite mount_slug, Hpost, mount_state.
Qed.

Lemma offered_links_resolve_witness :
  let p := {| Post.id := "low-latency-communication";
       Post.title := "Achieving Low Latency in Distributed Systems";
       Post.excerpt := "Techniques and patterns for building ultra-low latency communication systems including TCP optimizations and zero-copy strategies.";
       Post.date := "2025-01-10";
       Post.readTime := "12 min read";
       Post.tags := ["System Design"; "Performance"; "Networking"];
       Post.markdownFile := "low-latency-communication.md";
       Post.published := true |} in
  Post.published p = true
  ∧ BlogPostPage.post Fixture.blogPosts (Post.id p) = Some p
  ∧ BlogPostPage.render Fixture.blogPosts
      (BlogPostPage.mount Fixture.blogPosts (Post.id p))
    = BlogPostPage.Article p BlogPostPage.LoadingIndicator
        (BlogPostPage.relatedPosts Fixture.blogPosts (Post.id p)).
Proof.
  intros p.
  apply (offered_links_resolve JsString.asciiEngine Fixture.blogPosts p "latency"
           None "wal-notes").
  - apply (bool_decide_unpack _). vm_compute. exact I.
  - apply (bool_decide_unpack _). vm_compute. exact I.
Defined.

(** X11. "Latest Articles" is the head of the blog list: the home page
    shows the first three posts the blog page lists when nothing is typed
    and no tag is selected. *)
Theorem featuredPosts_head_of_blog_list (engine : JsString.Engine)
    (blogPosts : list BlogPostMeta) :
  HomePage.featuredPosts blogPosts
  = take 3 (BlogPage.filteredPosts engine blogPosts
              (BlogPage.searchQuery BlogPage.initial)
              (BlogPage.selectedTag BlogPage.initial)).
Proof.
  unfold HomePage.featuredPosts. rewrite slice_from_0. f_equal.
  apply filter_ext. intros p _. simpl. by rewrite matchesSearch_empty.
Qed.

(** ** The loader over whole runs *)

Section RunFacts.
Import Promise BlogPostPage.
Variable blogPosts : list BlogPostMeta.

Lemma commit_Sound_requests i :
  Forall (λ url, ∃ p, p ∈ blogPosts ∧ url = "/blogs/" +:+ Post.markdownFile p)
    (requests i) →
  inflight i `sublist_of` requests i →
  Spec.Sound blogPosts (commit blogPosts i)
  ∧ length (requests (commit blogPosts i)) ≤ S (length (requests i)).
Proof.
  intros Hreq Hsub. unfold Spec.Sound. rewrite commit_deps, commit_slug.
  unfold commit. case_decide as Hd; [split_and!; [done | done | done | lia]|].
  destruct (post blogPosts (slug i)) as [p|] eqn:Hpost; simpl.
  - destruct (post_Some _ _ _ Hpost) as [_ Hin]. split_and!.
    + done.
    + apply Forall_app. split; [done|]. constructor; [by exists p | done].
    + by apply sublist_app.
    + rewrite length_app. simpl. lia.
  - split_and!; try done. lia.
Qed.

Lemma step_Sound i e :
  Spec.Sound blogPosts i →
  Spec.Sound blogPosts (step blogPosts i e)
  ∧ length (requests (step blogPosts i e))
    ≤ length (requests i) + Spec.navigations [e].
Proof.
  intros (Hdeps & Hreq & Hsub). destruct e as [slug'|k outcome].
  - simpl.
    destruct (commit_Sound_requests
                {| slug := slug'; state := state i; deps := deps i;
                   inflight := inflight i; requests := requests i |} Hreq Hsub)
      as [Hs Hl].
    split; [exact Hs|]. cbn [requests] in Hl.
    change (Spec.navigations [Navigate slug']) with 1.
    clear -Hl. lia.
  - destruct (step_Settle_requests blogPosts i k outcome Hdeps) as [Hr Hd].
    split; [|rewrite Hr; simpl Spec.navigations; lia].
    split_and!; [done | by rewrite Hr |]. rewrite Hr. simpl.
    destruct (inflight i !! k) eqn:Hk; [|done].
    rewrite commit_idle by done. simpl.
    etrans; [apply sublist_delete | done].
Qed.

Lemma mount_Sound slug0 : Spec.Sound blogPosts (mount blogPosts slug0).
Proof.
  split_and!.
  - apply mount_deps.
  - rewrite mount_requests.
    destruct (post blogPosts slug0) as [p|] eqn:Hpost; [|done].
    destruct (post_Some _ _ _ Hpost) as [_ Hin].
    constructor; [by exists p | done].
  - by rewrite mount_inflight.
Qed.

Lemma run_Sound i events :
  Spec.Sound blogPosts i →
  Spec.Sound blogPosts (run blogPosts i events)
  ∧ length (requests (run blogPosts i events))
    ≤ length (requests i) + Spec.navigations events.
Proof.
  revert i. induction events as [|e events IH]; intros i Hi.
  - split; [done | simpl; lia].
  - change (run blogPosts i (e :: events))
      with (run blogPosts (step blogPosts i e) events).
    destruct (step_Sound i e Hi) as [Hs Hl].
    destruct (IH _ Hs) as [Hs' Hl']. split; [done|].
    assert (Spec.navigations (e :: events)
            = Spec.navigations [e] + Spec.navigations events) as ->
      by (by destruct e).
    lia.
Qed.
End RunFacts.

(** X12. Whatever happens after the view is mounted (slug changes,
    responses and failures in any order), every request it has made is for
    [/blogs/<markdownFile>] of a post of the dataset, the requests still in
    flight are among them, and there are at most as many requests as slug
    changes plus one. *)
Theorem requests_are_dataset_documents (blogPosts : list BlogPostMeta)
    (slug : string) (events : list BlogPostPage.Event) :
  let i := BlogPostPage.run blogPosts (BlogPostPage.mount blogPosts slug) events in
  Forall (λ url, ∃ p, p ∈ blogPosts ∧ url = "/blogs/" +:+ Post.markdownFile p)
    (BlogPostPage.requests i)
  ∧ BlogPostPage.inflight i `sublist_of` BlogPostPage.requests i
  ∧ length (BlogPostPage.requests i) ≤ 1 + Spec.navigations events.
Proof.
  intros i.
  destruct (run_Sound blogPosts _ events (mount_Sound blogPosts slug))
    as [(_ & Hreq & Hsub) Hlen].
  split_and!; [done | done |]. fold i in Hlen.
  assert (length (BlogPostPage.requests (BlogPostPage.mount blogPosts slug)) ≤ 1).
  { rewrite mount_requests. destruct (BlogPostPage.post blogPosts slug); simpl; lia. }
  lia.
Qed.

Section LoadingFacts.
Import Promise BlogPostPage.
Variable blogPosts : list BlogPostMeta.

Lemma step_loading_off i e :
  loading (state i) = false → loading (state (step blogPosts i e)) = false.
Proof.
  intros H. destruct e as [slug'|k outcome].
  - by rewrite step_Navigate_state.
  - destruct (inflight i !! k) as [url|] eqn:Hk.
    + rewrite (step_Settle_state blogPosts i k url outcome Hk).
      apply loadChain_settles.
    + simpl. by rewrite Hk.
Qed.
End LoadingFacts.

(** X13. The loading indicator never comes back: once the loading flag of
    a mounted view is off, no slug change and no response turns it on
    again, so from then on the view shows article text or the not-found
    state and never "Loading article...". *)
Theorem loading_never_returns (blogPosts : list BlogPostMeta)
    (i : BlogPostPage.Instance) (events : list BlogPostPage.Event) :
  BlogPostPage.loading (BlogPostPage.state i) = false →
  BlogPostPage.loading (BlogPostPage.state (BlogPostPage.run blogPosts i events))
  = false
  ∧ ∀ p more,
      BlogPostPage.render blogPosts (BlogPostPage.run blogPosts i events)
      ≠ BlogPostPage.Article p BlogPostPage.LoadingIndicator more.
Proof.
  intros Hoff.
  assert (BlogPostPage.loading
            (BlogPostPage.state (BlogPostPage.run blogPosts i events)) = false) as H.
  { revert i Hoff. induction events as [|e events IH]; intros i Hoff; [done|].
    change (BlogPostPage.run blogPosts i (e :: events))
      with (BlogPostPage.run blogPosts (BlogPostPage.step blogPosts i e) events).
    apply IH. by apply step_loading_off. }
  split; [done|]. intros p more. unfold BlogPostPage.render. rewrite H.
  by destruct (BlogPostPage.post blogPosts _).
Qed.

Lemma loading_never_returns_witness :
  let i :=
    BlogPostPage.step MockData.blogPosts
      (BlogPostPage.mount MockData.blogPosts "microservices-patterns")
      (BlogPostPage.Settle 0 (Promise.Rejected "Failed to fetch")) in
  let events :=
    [BlogPostPage.Navigate "postgres-query-optimization";
     BlogPostPage.Navigate "no-such-article";
     BlogPostPage.Settle 0
       (Promise.Fulfilled {| Fetch.ok := true; Fetch.status := 200;
                             Fetch.text := Promise.Fulfilled "# PostgreSQL" |})] in
  BlogPostPage.loading (BlogPostPage.state i) = false
  ∧ BlogPostPage.loading
      (BlogPostPage.state (BlogPostPage.run MockData.blogPosts i events)) = false
  ∧ ∀ p more,
      BlogPostPage.render MockData.blogPosts
        (BlogPostPage.run MockData.blogPosts i events)
      ≠ BlogPostPage.Article p BlogPostPage.LoadingIndicator more.
Proof.
  intros i events.
  assert (BlogPostPage.loading (BlogPostPage.state i) = false) as H
    by reflexivity.
  split; [exact H|].
  exact (loading_never_returns MockData.blogPosts i events H).
Defined.

(** X14. A change of slug starts a request exactly when the new slug
    resolves to a post and that post is not the one the previous slug
    resolved to; the request is for the document of the new post. A change
    to the same slug, between two slugs that match no post, or from an
    article to a slug that matches no post starts none. *)
Theorem navigate_fetches_iff_post_changes (blogPosts : list BlogPostMeta)
    (i : BlogPostPage.Instance) (slug' : string) :
  BlogPostPage.deps i
  = Some (BlogPostPage.post blogPosts (BlogPostPage.slug i)) →
  BlogPostPage.requests (BlogPostPage.step blogPosts i (BlogPostPage.Navigate slug'))
  = BlogPostPage.requests i
    ++ match BlogPostPage.post blogPosts slug' with
       | Some p =>
           if decide (BlogPostPage.post blogPosts (BlogPostPage.slug i) = Some p)
           then []
           else ["/blogs/" +:+ Post.markdownFile p]
       | None => []
       end.
Proof.
  intros Hdeps. simpl. unfold BlogPostPage.commit. simpl. rewrite Hdeps.
  destruct (BlogPostPage.post blogPosts slug') as [p|] eqn:Hpost.
  - destruct (decide (BlogPostPage.post blogPosts (BlogPostPage.slug i) = Some p))
      as [Heq|Hne].
    + rewrite decide_True by congruence. by rewrite app_nil_r.
    + rewrite decide_False by congruence. done.
  - case_decide; simpl; by rewrite app_nil_r.
Qed.

Lemma navigate_fetches_iff_post_changes_witness :
  let i := BlogPostPage.mount MockData.blogPosts "microservices-patterns" in
  BlogPostPage.requests
    (BlogPostPage.step MockData.blogPosts i
       (BlogPostPage.Navigate "postgres-query-optimization"))
  = ["/blogs/microservices-patterns.md"; "/blogs/postgres-query-optimization.md"]
  ∧ BlogPostPage.requests
      (BlogPostPage.step MockData.blogPosts i
         (BlogPostPage.Navigate "microservices-patterns"))
    = ["/blogs/microservices-patterns.md"]
  ∧ BlogPostPage.requests
      (BlogPostPage.step MockData.blogPosts i
         (BlogPostPage.Navigate "no-such-article"))
    = ["/blogs/microservices-patterns.md"].
Proof.
  intros i.
  assert (BlogPostPage.deps i
          = Some (BlogPostPage.post MockData.blogPosts (BlogPostPage.slug i))) as H
    by reflexivity.
  split_and!.
  - rewrite (navigate_fetches_iff_post_changes MockData.blogPosts i
               "postgres-query-optimization" H).
    reflexivity.
  - rewrite (navigate_fetches_iff_post_changes MockData.blogPosts i
               "microservices-patterns" H).
    reflexivity.
  - rewrite (navigate_fetches_iff_post_changes MockData.blogPosts i
               "no-such-article" H).
    reflexivity.
Defined.

(** X15. When a request in flight fails, or its body cannot be read, the
    state takes the fallback document and leaves the loading phase, the
    reason is written to the console, and what is rendered does not depend
    on the reason. *)
Theorem failure_shows_fallback (blogPosts : list BlogPostMeta)
    (i : BlogPostPage.Instance) (k : nat) (url reason : string)
    (ok : bool) (status : nat) :
  BlogPostPage.inflight i !! k = Some url →
  let failed := BlogPostPage.step blogPosts i
                  (BlogPostPage.Settle k (Promise.Rejected reason)) in
  let unreadable :=
    BlogPostPage.step blogPosts i
      (BlogPostPage.Settle k
         (Promise.Fulfilled {| Fetch.ok := ok; Fetch.status := status;
                               Fetch.text := Promise.Rejected reason |})) in
  BlogPostPage.state failed
  = {| BlogPostPage.markdownContent := BlogPostPage.fallback;
       BlogPostPage.loading := false;
       BlogPostPage.console :=
         BlogPostPage.console (BlogPostPage.state i)
         ++ [("Error loading markdown:", reason)] |}
  ∧ BlogPostPage.state unreadable = BlogPostPage.state failed
  ∧ BlogPostPage.render blogPosts failed
    = match BlogPostPage.post blogPosts (BlogPostPage.slug i) with
      | Some p =>
          BlogPostPage.Article p (BlogPostPage.Markdown BlogPostPage.fallback)
            (BlogPostPage.relatedPosts blogPosts (BlogPostPage.slug i))
      | None => BlogPostPage.NotFound
      end
  ∧ BlogPostPage.render blogPosts unreadable = BlogPostPage.render blogPosts failed.
Proof.
  intros Hk failed unreadable. subst failed unreadable.
  rewrite !(step_Settle_state blogPosts i k url _ Hk).
  unfold BlogPostPage.render.
  rewrite !step_Settle_slug, !(step_Settle_state blogPosts i k url _ Hk).
  split_and!; try done.
Qed.

Lemma failure_shows_fallback_witness :
  let i := BlogPostPage.mount MockData.blogPosts "microservices-patterns" in
  let failed := BlogPostPage.step MockData.blogPosts i
                  (BlogPostPage.Settle 0 (Promise.Rejected "Failed to fetch")) in
  BlogPostPage.inflight i !! 0 = Some "/blogs/microservices-patterns.md"
  ∧ BlogPostPage.state failed
    = {| BlogPostPage.markdownContent := BlogPostPage.fallback;
         BlogPostPage.loading := false;
         BlogPostPage.console := [("Error loading markdown:", "Failed to fetch")] |}.
Proof.
  intros i failed.
  assert (BlogPostPage.inflight i !! 0 = Some "/blogs/microservices-patterns.md")
    as H by reflexivity.
  split; [exact H|].
  exact (proj1 (failure_shows_fallback MockData.blogPosts i 0
                  "/blogs/microservices-patterns.md" "Failed to fetch" false 0 H)).
Defined.

(** ** The header over whole runs *)

Lemma run_toggles (isMenuOpen : bool) (n : nat) :
  Header.run isMenuOpen (replicate n Header.ClickToggle)
  = if Nat.odd n then negb isMenuOpen else isMenuOpen.
Proof.
  revert isMenuOpen. induction n as [|n IH]; intros isMenuOpen; [done|].
  change (Header.run isMenuOpen (replicate (S n) Header.ClickToggle))
    with (Header.run (negb isMenuOpen) (replicate n Header.ClickToggle)).
  rewrite IH, Nat.odd_succ, <- Nat.negb_odd.
  by destruct (Nat.odd n), isMenuOpen.
Qed.

(** X16. The mobile menu is open exactly after an odd number of clicks on
    the toggle since the page was loaded or a navigation link was last
    clicked; a click on any navigation link closes it. *)
Theorem menu_open_iff_odd_toggles (isMenuOpen : bool) (events : list Header.Event)
    (link : Header.NavLink) (n : nat) :
  Header.run Header.initialMenu (replicate n Header.ClickToggle) = Nat.odd n
  ∧ Header.run isMenuOpen
      (events ++ Header.ClickLink link :: replicate n Header.ClickToggle)
    = Nat.odd n
  ∧ Header.navClass (Header.run isMenuOpen (events ++ [Header.ClickLink link]))
    = "nav ".
Proof.
  unfold Header.run at 2 3. rewrite !fold_left_app. simpl.
  fold (Header.run false (replicate n Header.ClickToggle)).
  unfold Header.initialMenu. rewrite run_toggles.
  by destruct (Nat.odd n).
Qed.

(** X17. At every location at most one navigation entry is marked
    active, and on the path of a navigation entry it is that entry alone. *)
Theorem at_most_one_active (pathname : string) :
  length (Header.activeLinks pathname) ≤ 1
  ∧ Forall (λ link, Header.activeLinks (Header.path link) = [link]) Header.navLinks.
Proof.
  split; [|by repeat constructor].
  unfold Header.activeLinks, Header.render, Header.navLinks. simpl.
  destruct (Header.isActive pathname "/") eqn:H1;
  destruct (Header.isActive pathname "/about") eqn:H2;
  destruct (Header.isActive pathname "/blog") eqn:H3;
  destruct (Header.isActive pathname "/projects") eqn:H4;
  destruct (Header.isActive pathname "/contact") eqn:H5;
  rewrite ?isActive_spec in *; simplify_eq; simpl; lia.
Qed.

(** ** Lookups with a fallback *)

Lemma ownProperty_loop {A} (literal : list (string * A)) (key : string) (found : option A) :
  fold_left (λ found entry, if JsString.strictEq entry.1 key then Some entry.2 else found)
    literal found
  = match JsObject.ownProperty literal key with
    | Some value => Some value
    | None => found
    end.
Proof.
  unfold JsObject.ownProperty. revert found.
  induction literal as [|[k v] literal IH]; intros found; [done|].
  simpl. rewrite IH. symmetry. rewrite IH.
  by destruct (fold_left _ literal None), (JsString.strictEq k key).
Qed.

(** A key that is not written in the literal has no own property. *)
Lemma ownProperty_None {A} (literal : list (string * A)) (key : string) :
  JsObject.ownProperty literal key = None ↔ key ∉ literal.*1.
Proof.
  induction literal as [|[k v] literal IH].
  - split; [by intros _ ?%elem_of_nil | done].
  - unfold JsObject.ownProperty. simpl. rewrite ownProperty_loop.
    rewrite not_elem_of_cons, <- IH. unfold JsString.strictEq.
    destruct (String.eqb_spec k key) as [->|Hne];
      destruct (JsObject.ownProperty literal key); naive_solver.
Qed.

(** An own property comes from an entry of the literal. *)
Lemma ownProperty_Some {A} (literal : list (string * A)) (key : string) (value : A) :
  JsObject.ownProperty literal key = Some value → (key, value) ∈ literal.
Proof.
  induction literal as [|[k v] literal IH]; [done|].
  unfold JsObject.ownProperty. simpl. rewrite ownProperty_loop.
  destruct (JsObject.ownProperty literal key) as [v'|] eqn:Hown.
  - intros [= <-]. right. by apply IH.
  - unfold JsString.strictEq. destruct (String.eqb_spec k key) as [->|Hne].
    + intros [= <-]. by left.
    + done.
Qed.

(** X18. The two lookups by interest label never come back empty. For a
    label that is not a member name of [Object.prototype], the description
    is a non-empty text and the icon is an icon of the icon set; a label
    that is not written in the table gets the default sentence and the
    default icon. A label that is such a member name gets the inherited
    member instead of a text or an icon. *)
Theorem interest_lookups_fall_back (interest : string) :
  (interest ∉ JsObject.prototypeKeys →
   (∃ text, AboutPage.getInterestDescription interest = AboutPage.Text text
            ∧ text ≠ ""
            ∧ (interest ∉ AboutPage.descriptions.*1 →
               text = AboutPage.defaultDescription))
   ∧ (∃ icon, HomePage.iconFor interest = HomePage.Lucide icon
              ∧ (interest ∉ HomePage.interestIcons.*1 → icon = HomePage.Code)))
  ∧ (interest ∈ JsObject.prototypeKeys →
     AboutPage.getInterestDescription interest = AboutPage.PrototypeMember interest
     ∧ HomePage.iconFor interest = HomePage.PrototypeMember interest).
Proof.
  split.
  - intros Hproto.
    assert (JsArray.includes JsObject.prototypeKeys interest = false) as Hinc.
    { destruct (JsArray.includes _ interest) eqn:H; [|done].
      by apply Array_includes_elem_of in H. }
    split.
    + unfold AboutPage.getInterestDescription, JsObject.get. rewrite Hinc.
      destruct (JsObject.ownProperty AboutPage.descriptions interest)
        as [text|] eqn:Hown.
      * assert (JsString.truthy text = true ∧ text ≠ "") as [-> ?].
        { apply ownProperty_Some in Hown. unfold AboutPage.descriptions in Hown.
          repeat (apply elem_of_cons in Hown as [[= _ ->]|Hown]; [by split|]).
          by apply elem_of_nil in Hown. }
        exists text. split_and!; [done | done |].
        intros Hkey%ownProperty_None. congruence.
      * exists AboutPage.defaultDescription. by split_and!.
    + unfold HomePage.iconFor, JsObject.get. rewrite Hinc.
      destruct (JsObject.ownProperty HomePage.interestIcons interest)
        as [icon|] eqn:Hown.
      * exists icon. split; [done|]. intros Hkey%ownProperty_None. congruence.
      * by exists HomePage.Code.
  - intros Hproto.
    assert (JsArray.includes JsObject.prototypeKeys interest = true) as Hinc
      by (by apply Array_includes_elem_of).
    assert (interest ∉ AboutPage.descriptions.*1) as Hd.
    { intros Hin. unfold JsObject.prototypeKeys in Hproto. simpl in Hin.
      repeat (apply elem_of_cons in Hin as [->|Hin];
              [by repeat (apply elem_of_cons in Hproto as [[=]|Hproto];
                          try by apply elem_of_nil in Hproto)|]).
      by apply elem_of_nil in Hin. }
    assert (interest ∉ HomePage.interestIcons.*1) as Hi by done.
    apply ownProperty_None in Hd, Hi.
    unfold AboutPage.getInterestDescription, HomePage.iconFor, JsObject.get.
    by rewrite Hd, Hi, Hinc.
Qed.

(** On the shipped profile every interest has its own text and icon. *)
Example interests_shipped :
  HomePage.interestCards (Profile.interests MockData.profileData)
  = [("Low Latency Data Communication", HomePage.Lucide HomePage.Server);
     ("Database Internals", HomePage.Lucide HomePage.Database);
     ("System Design", HomePage.Lucide HomePage.Layers);
     ("Backend Development", HomePage.Lucide HomePage.Code)]
  ∧ AboutPage.getInterestDescription "Distributed Tracing"
    = AboutPage.Text AboutPage.defaultDescription
  ∧ AboutPage.getInterestDescription "constructor"
    = AboutPage.PrototypeMember "constructor".
Proof. by vm_compute. Qed.

(** ** Projects and contact *)

Lemma linkButton_spec (caption : string) (url : option string) :
  Forall (λ button, ProjectsPage.caption button = caption
                    ∧ ProjectsPage.href button ≠ ""
                    ∧ url = Some (ProjectsPage.href button))
    (ProjectsPage.linkButton caption url).
Proof. destruct url as [[|c u]|]; simpl; repeat constructor; done. Qed.

(** X19. The projects page shows every project of the dataset once, in
    dataset order, featured or not, with the badge on the featured ones.
    A card has a "View Code" button exactly for a repository URL that is
    neither [null] nor empty, and then the button leads to that URL; it has
    a "Live Demo" button exactly for a live URL that is neither [null] nor
    empty, and then the button leads to that URL; "View Code" comes first.
    Every project under "Featured Projects" on the home page has its card
    here, with the badge. *)
Theorem projects_page_shows_all (projects : list Project) :
  ProjectsPage.project <$> ProjectsPage.render projects = projects
  ∧ Forall (λ card,
        let p := ProjectsPage.project card in
        ProjectsPage.featuredBadge card = Proj.featured p
        ∧ ProjectsPage.caption <$> ProjectsPage.links card
          = (if JsNullable.truthy (Proj.github p) then ["View Code"] else [])
            ++ (if JsNullable.truthy (Proj.liveUrl p) then ["Live Demo"] else [])
        ∧ Forall (λ button,
              ProjectsPage.href button ≠ ""
              ∧ ((ProjectsPage.caption button = "View Code"
                  ∧ Proj.github p = Some (ProjectsPage.href button))
                 ∨ (ProjectsPage.caption button = "Live Demo"
                    ∧ Proj.liveUrl p = Some (ProjectsPage.href button))))
            (ProjectsPage.links card))
      (ProjectsPage.render projects)
  ∧ Forall (λ p, ∃ card, card ∈ ProjectsPage.render projects
                         ∧ ProjectsPage.project card = p
                         ∧ ProjectsPage.featuredBadge card = true)
      (HomePage.featuredProjects projects).
Proof.
  split_and!.
  - unfold ProjectsPage.render. rewrite <- list_fmap_compose. apply list_fmap_id.
  - unfold ProjectsPage.render. apply Forall_fmap, Forall_forall.
    intros p _. simpl. split_and!.
    + done.
    + rewrite fmap_app. f_equal.
      * by destruct (Proj.github p) as [[|c u]|].
      * by destruct (Proj.liveUrl p) as [[|c u]|].
    + apply Forall_app. split.
      * eapply Forall_impl; [apply linkButton_spec|].
        intros button (? & ? & ?). split; [done|]. by left.
      * eapply Forall_impl; [apply linkButton_spec|].
        intros button (? & ? & ?). split; [done|]. by right.
  - apply Forall_forall. intros p Hp.
    unfold HomePage.featuredProjects in Hp. rewrite slice_from_0 in Hp.
    apply subseteq_take, filter_elem_of in Hp as [Hin Hf].
    exists {| ProjectsPage.project := p;
              ProjectsPage.featuredBadge := Proj.featured p;
              ProjectsPage.links :=
                ProjectsPage.linkButton "View Code" (Proj.github p)
                ++ ProjectsPage.linkButton "Live Demo" (Proj.liveUrl p) |}.
    split_and!; [|done|exact Hf].
    unfold ProjectsPage.render. apply list_elem_of_fmap. by exists p.
Qed.

